(** * Local Sports Hub: the event read-model, RSVP toggle and feed filter

    A shallow embedding of [contexts/EventsContext.tsx] (the events
    provider), the decoders of [services/firebaseService.ts] and the
    filter effect of the events feed screen, with the properties the
    specification states about them. *)

From Stdlib Require Import ZArith QArith.QArith_base Lia.
From stdpp Require Import base tactics option list strings gmap sorting pretty.

Local Open Scope string_scope.
Local Open Scope list_scope.
Local Open Scope Z_scope.

(** ** Data model ([types/index.ts]) *)

(** A JavaScript [Date]: its time value in milliseconds since the epoch,
    or [None] for the NaN time value of an invalid date. *)
Definition Date : Type := option Z.

(** Relational comparison of two dates ([a <= b], [a >= b] in the source):
    both operands are converted to their time values, and any comparison
    with NaN is false. *)
Definition date_le (a b : Date) : bool :=
  match a, b with
  | Some x, Some y => x <=? y
  | _, _ => false
  end.

Definition date_ge (a b : Date) : bool := date_le b a.

Inductive Role := RoleUser | RoleOrganizer.

Record User := {
  uid : string;
  email : string;
  displayName : string;
  photoURL : option string;
  bio : option string;
  role : Role;
  user_createdAt : Date;
  user_updatedAt : Date;
}.

Inductive EventType := Yoga | Run | Match.

Inductive DifficultyLevel :=
  | Beginner | Intermediate | Advanced | AllAges | Low | High | Mixed
  | Amateur | FamilyAndKids.

Record Coordinates := { latitude : Q; longitude : Q }.

Record EventLocation := { address : string; coordinates : Coordinates }.

Record Event := {
  id : string;
  title : string;
  type : EventType;
  dateTime : Date;
  duration : Z;
  location : EventLocation;
  difficulty : DifficultyLevel;
  imageURL : option string;
  description : string;
  shortDescription : string;
  hostId : string;
  hostName : string;
  rsvpCount : Z;
  rsvpList : list string;
  createdAt : Date;
  updatedAt : Date;
}.

#[global] Instance Role_eq_dec : EqDecision Role.
Proof. solve_decision. Defined.
#[global] Instance EventType_eq_dec : EqDecision EventType.
Proof. solve_decision. Defined.
#[global] Instance DifficultyLevel_eq_dec : EqDecision DifficultyLevel.
Proof. solve_decision. Defined.
#[global] Instance Q_eq_dec : EqDecision Q.
Proof. solve_decision. Defined.
#[global] Instance Coordinates_eq_dec : EqDecision Coordinates.
Proof. solve_decision. Defined.
#[global] Instance EventLocation_eq_dec : EqDecision EventLocation.
Proof. solve_decision. Defined.
#[global] Instance Event_eq_dec : EqDecision Event.
Proof. solve_decision. Defined.

(** ** String helpers *)

(** [haystack.includes(needle)]: [needle] occurs in [haystack] as a
    contiguous run of code units. *)
Fixpoint includes (haystack needle : string) : bool :=
  String.prefix needle haystack ||
  match haystack with
  | EmptyString => false
  | String _ rest => includes rest needle
  end.

(** Truthiness of a string: every string but the empty one. *)
Definition truthy (s : string) : bool := negb (String.eqb s "").

(** ** The feed filter (events feed screen, the filter [useEffect]) *)

Record DateRange := { start : Date; end_ : Date }.

(** The [filters] state of the feed; [null] is [None]. *)
Record Filters := {
  flt_type : option EventType;
  flt_difficulty : option DifficultyLevel;
  flt_dateRange : option DateRange;
}.

Section EventsFeed.
(** [String.prototype.toLowerCase] and [String.prototype.trim] are
    built-ins of the language; the filter is embedded over any pair of
    functions in their place. *)
Variable toLowerCase : string -> string.
Variable trim : string -> string.

Definition searchMatch (searchQuery : string) (event : Event) : bool :=
  includes (toLowerCase (title event)) (toLowerCase searchQuery) ||
  includes (toLowerCase (description event)) (toLowerCase searchQuery) ||
  includes (toLowerCase (address (location event))) (toLowerCase searchQuery).

Definition typeMatch (t : EventType) (event : Event) : bool :=
  bool_decide (type event = t).

Definition difficultyMatch (d : DifficultyLevel) (event : Event) : bool :=
  bool_decide (difficulty event = d).

Definition dateRangeMatch (r : DateRange) (event : Event) : bool :=
  let eventDate := dateTime event in
  date_ge eventDate (start r) && date_le eventDate (end_ r).

(** The body of the effect: the value handed to [setFilteredEvents]. *)
Definition applyFilters (events : list Event) (searchQuery : string)
    (filters : Filters) : list Event :=
  let filtered := events in
  let filtered :=
    if truthy (trim searchQuery)
    then List.filter (searchMatch searchQuery) filtered
    else filtered in
  let filtered :=
    match flt_type filters with
    | Some t => List.filter (typeMatch t) filtered
    | None => filtered
    end in
  let filtered :=
    match flt_difficulty filters with
    | Some d => List.filter (difficultyMatch d) filtered
    | None => filtered
    end in
  let filtered :=
    match flt_dateRange filters with
    | Some r => List.filter (dateRangeMatch r) filtered
    | None => filtered
    end in
  filtered.

(** The conjunction of the four stages, as one predicate. *)
Definition passes (searchQuery : string) (filters : Filters) (event : Event) : bool :=
  (if truthy (trim searchQuery) then searchMatch searchQuery event else true) &&
  match flt_type filters with Some t => typeMatch t event | None => true end &&
  match flt_difficulty filters with Some d => difficultyMatch d event | None => true end &&
  match flt_dateRange filters with Some r => dateRangeMatch r event | None => true end.

End EventsFeed.

(** ** Firestore values *)

(** A Firestore [Timestamp]. *)
Record Timestamp := { seconds : Z; nanoseconds : Z }.

#[global] Instance Timestamp_eq_dec : EqDecision Timestamp.
Proof. solve_decision. Defined.

(** The instant of a timestamp, in nanoseconds since the epoch. *)
Definition ts_nanos (t : Timestamp) : Z :=
  seconds t * 1000000000 + nanoseconds t.

(** [Timestamp.toDate()]: [new Date(seconds * 1000 + nanoseconds / 1e6)];
    the [Date] constructor drops the fraction of a millisecond, rounding
    towards zero. *)
Definition toDate (t : Timestamp) : Date :=
  Some (Z.quot (ts_nanos t) 1000000).

(** [Timestamp.fromMillis], which Firestore applies to a [Date] it stores. *)
Definition fromMillis (ms : Z) : Timestamp :=
  {| seconds := ms / 1000; nanoseconds := (ms mod 1000) * 1000000 |}.

(** Chronological order of timestamps, the order of
    [orderBy('dateTime', 'asc')]. *)
Definition ts_le (a b : Timestamp) : Prop := ts_nanos a <= ts_nanos b.

#[global] Instance ts_le_dec : RelDecision ts_le.
Proof. intros a b. unfold ts_le. apply _. Defined.

(** ** Documents as the SDK hands them over: untyped field maps *)

(** The values a document field, or a property of a decoded object, holds. *)
#[warnings="-register-all"] Inductive value :=
  | VNull
  | VBool (b : bool)
  | VNum (q : Q)
  | VStr (s : string)
  | VTimestamp (t : Timestamp)
  | VDate (d : Date)
  | VArray (items : list value)
  | VMap (fields : list (string * value)).

(** [DocumentData]: the result of [doc.data()], and any plain object. *)
Abbreviation DocumentData := (gmap string value).

(** Object spread [{...target, ...source}]: own properties of [source]
    are copied onto [target], replacing properties of the same name. *)
Definition spread (target source : DocumentData) : DocumentData :=
  source ∪ target.

(** A property written in an object literal after what precedes it. *)
Definition setProp (name : string) (v : value) (o : DocumentData) : DocumentData :=
  <[name := v]> o.

(** [data.<field>.toDate()]: only a [Timestamp] has the method; on a
    missing field or any other value the call raises a [TypeError]
    ([None]). *)
Definition fieldToDate (data : DocumentData) (field : string) : option Date :=
  match data !! field with
  | Some (VTimestamp t) => Some (toDate t)
  | _ => None
  end.

(** The object literal of the three event decoders (the [onSnapshot]
    handler, [FirebaseService.getEvents], [FirebaseService.getEvent]):
    [{ id: doc.id, ...data, dateTime: data.dateTime.toDate(),
       createdAt: data.createdAt.toDate(), updatedAt: data.updatedAt.toDate() }],
    properties taking effect in the order they are written. *)
Definition decodeObject (docId : string) (data : DocumentData) : option DocumentData :=
  dt ← fieldToDate data "dateTime";
  ca ← fieldToDate data "createdAt";
  ua ← fieldToDate data "updatedAt";
  Some (setProp "updatedAt" (VDate ua)
         (setProp "createdAt" (VDate ca)
           (setProp "dateTime" (VDate dt)
             (spread (setProp "id" (VStr docId) ∅) data)))).

(** ** Documents of the [events] collection, typed *)

(** A document body that has the fields of [Event], the three date
    fields holding a [D]. A body may or may not carry an [id] field of
    its own ([d_id]); the document identifier is not part of the body. *)
Set Implicit Arguments.
Record EventDocOf (D : Type) := {
  d_id : option string;
  d_title : string;
  d_type : EventType;
  d_dateTime : D;
  d_duration : Z;
  d_location : EventLocation;
  d_difficulty : DifficultyLevel;
  d_imageURL : option string;
  d_description : string;
  d_shortDescription : string;
  d_hostId : string;
  d_hostName : string;
  d_rsvpCount : Z;
  d_rsvpList : list string;
  d_createdAt : D;
  d_updatedAt : D;
}.
Unset Implicit Arguments.

(** A body as the application writes it: the three dates are Firestore
    timestamps. *)
Abbreviation EventDoc := (EventDocOf Timestamp).

(** A body as [doc.data()] hands it to the decoder, which takes it for
    an [Event] ([as Event]) without looking: a date field may be missing
    ([None]) or hold any value. *)
Abbreviation DocumentBody := (EventDocOf (option value)).

(** The body [d] with the given contents in its three date fields. *)
Definition bodyWith (dt ca ua : option value) (d : EventDoc) : DocumentBody :=
  {| d_id := d_id d; d_title := d_title d; d_type := d_type d;
     d_dateTime := dt;
     d_duration := d_duration d; d_location := d_location d;
     d_difficulty := d_difficulty d; d_imageURL := d_imageURL d;
     d_description := d_description d;
     d_shortDescription := d_shortDescription d; d_hostId := d_hostId d;
     d_hostName := d_hostName d; d_rsvpCount := d_rsvpCount d;
     d_rsvpList := d_rsvpList d;
     d_createdAt := ca;
     d_updatedAt := ua |}.

(** [doc.data()] of a document the application wrote. *)
Definition dataOf (d : EventDoc) : DocumentBody :=
  bodyWith (Some (VTimestamp (d_dateTime d))) (Some (VTimestamp (d_createdAt d)))
    (Some (VTimestamp (d_updatedAt d))) d.

(** A [QueryDocumentSnapshot]: [doc.id] and [doc.data()]. *)
Record QueryDocumentSnapshot := { doc_id : string; doc_data : DocumentBody }.

(** The evaluation of an expression: it returns a value, or raises an
    [Error] with a message. *)
Inductive Evaluated (A : Type) :=
  | Returns (a : A)
  | Raises (message : string).
Arguments Returns {A} a.
Arguments Raises {A} message.

#[global] Instance Evaluated_ret : MRet Evaluated := fun A a => Returns a.

#[global] Instance Evaluated_bind : MBind Evaluated := fun A B f m =>
  match m with
  | Returns a => f a
  | Raises msg => Raises msg
  end.

(** [data.<field>.toDate()] on a body: only a [Timestamp] has the
    method; on a missing field, on [null] and on any other value the
    call raises a [TypeError]. The wording of its message is the
    engine's; no caller reads it. *)
Definition toDateOf (field : string) (v : option value) : Evaluated Date :=
  match v with
  | Some (VTimestamp t) => Returns (toDate t)
  | None => Raises ("TypeError: data." +:+ field +:+ " is undefined")
  | Some VNull => Raises ("TypeError: data." +:+ field +:+ " is null")
  | Some _ => Raises ("TypeError: data." +:+ field +:+ ".toDate is not a function")
  end.

(** The object literal of the [onSnapshot] handler on such a body,
    [{ id: doc.id, ...data, dateTime: data.dateTime.toDate(),
       createdAt: data.createdAt.toDate(), updatedAt: data.updatedAt.toDate() }
     as Event], its properties evaluated in the order they are written. *)
Definition decodeDocument (docId : string) (data : DocumentBody) : Evaluated Event :=
  dt ← toDateOf "dateTime" (d_dateTime data);
  ca ← toDateOf "createdAt" (d_createdAt data);
  ua ← toDateOf "updatedAt" (d_updatedAt data);
  Returns
    {| id := match d_id data with Some i => i | None => docId end;
       title := d_title data;
       type := d_type data;
       dateTime := dt;
       duration := d_duration data;
       location := d_location data;
       difficulty := d_difficulty data;
       imageURL := d_imageURL data;
       description := d_description data;
       shortDescription := d_shortDescription data;
       hostId := d_hostId data;
       hostName := d_hostName data;
       rsvpCount := d_rsvpCount data;
       rsvpList := d_rsvpList data;
       createdAt := ca;
       updatedAt := ua |}.

(** A document the decoder gets through: its three date fields hold
    timestamps. *)
Definition isTimestamp (v : option value) : bool :=
  match v with Some (VTimestamp _) => true | _ => false end.

Definition hasTimestamps (doc : QueryDocumentSnapshot) : bool :=
  isTimestamp (d_dateTime (doc_data doc)) &&
  isTimestamp (d_createdAt (doc_data doc)) &&
  isTimestamp (d_updatedAt (doc_data doc)).

(** A snapshot all of whose documents are of that kind. *)
Definition decodable (snapshot : list QueryDocumentSnapshot) : bool :=
  forallb hasTimestamps snapshot.

(** The decoder's object literal on a body the application wrote. *)
Definition decodeEvent (docId : string) (data : EventDoc) : Event :=
  {| id := match d_id data with Some i => i | None => docId end;
     title := d_title data;
     type := d_type data;
     dateTime := toDate (d_dateTime data);
     duration := d_duration data;
     location := d_location data;
     difficulty := d_difficulty data;
     imageURL := d_imageURL data;
     description := d_description data;
     shortDescription := d_shortDescription data;
     hostId := d_hostId data;
     hostName := d_hostName data;
     rsvpCount := d_rsvpCount data;
     rsvpList := d_rsvpList data;
     createdAt := toDate (d_createdAt data);
     updatedAt := toDate (d_updatedAt data) |}.

(** The typed shapes as field maps. *)
Definition optProp (name : string) (v : option value) (o : DocumentData) : DocumentData :=
  match v with Some x => setProp name x o | None => o end.

Definition locationValue (l : EventLocation) : value :=
  VMap [("address", VStr (address l));
        ("coordinates", VMap [("latitude", VNum (latitude (coordinates l)));
                              ("longitude", VNum (longitude (coordinates l)))])].

Definition commonProps (ttl : string) (ty : EventType) (dur : Z) (loc : EventLocation)
    (diff : DifficultyLevel) (img : option string) (descr sdescr hid hname : string)
    (cnt : Z) (lst : list string) : DocumentData :=
  optProp "imageURL" (VStr <$> img)
    (list_to_map
      [("title", VStr ttl);
       ("type", VStr match ty with Yoga => "Yoga" | Run => "Run" | Match => "Match" end);
       ("duration", VNum (inject_Z dur));
       ("location", locationValue loc);
       ("difficulty", VStr match diff with
          | Beginner => "Beginner" | Intermediate => "Intermediate"
          | Advanced => "Advanced" | AllAges => "All Ages" | Low => "Low"
          | High => "High" | Mixed => "Mixed" | Amateur => "Amateur"
          | FamilyAndKids => "Family & Kids" end);
       ("description", VStr descr);
       ("shortDescription", VStr sdescr);
       ("hostId", VStr hid);
       ("hostName", VStr hname);
       ("rsvpCount", VNum (inject_Z cnt));
       ("rsvpList", VArray (VStr <$> lst))]).

Definition docObject (d : EventDoc) : DocumentData :=
  optProp "id" (VStr <$> d_id d)
    (setProp "dateTime" (VTimestamp (d_dateTime d))
      (setProp "createdAt" (VTimestamp (d_createdAt d))
        (setProp "updatedAt" (VTimestamp (d_updatedAt d))
          (commonProps (d_title d) (d_type d) (d_duration d) (d_location d)
             (d_difficulty d) (d_imageURL d) (d_description d)
             (d_shortDescription d) (d_hostId d) (d_hostName d)
             (d_rsvpCount d) (d_rsvpList d))))).

(** A body as [doc.data()] hands it over, as a field map: a date field
    is present when the body has one. *)
Definition bodyObject (data : DocumentBody) : DocumentData :=
  optProp "id" (VStr <$> d_id data)
    (optProp "dateTime" (d_dateTime data)
      (optProp "createdAt" (d_createdAt data)
        (optProp "updatedAt" (d_updatedAt data)
          (commonProps (d_title data) (d_type data) (d_duration data)
             (d_location data) (d_difficulty data) (d_imageURL data)
             (d_description data) (d_shortDescription data) (d_hostId data)
             (d_hostName data) (d_rsvpCount data) (d_rsvpList data))))).

Definition eventObject (e : Event) : DocumentData :=
  setProp "id" (VStr (id e))
    (setProp "dateTime" (VDate (dateTime e))
      (setProp "createdAt" (VDate (createdAt e))
        (setProp "updatedAt" (VDate (updatedAt e))
          (commonProps (title e) (type e) (duration e) (location e)
             (difficulty e) (imageURL e) (description e)
             (shortDescription e) (hostId e) (hostName e)
             (rsvpCount e) (rsvpList e))))).

(** ** Writes sent to Firestore *)

(** The value of one property of an [updateDoc] argument. *)
Inductive FieldValue :=
  | FArrayUnion (elements : list string)    (* arrayUnion(...) *)
  | FArrayRemove (elements : list string)   (* arrayRemove(...) *)
  | FNumber (n : Z)
  | FDate (ms : Z).                         (* a valid Date *)

(** The argument of [updateDoc]: the properties of the object literal, in
    the order they are written. *)
Definition UpdateData : Type := list (string * FieldValue).

(** The [eventData] argument of [createEvent]:
    [Omit<Event, 'id' | 'hostId' | 'hostName' | 'rsvpCount' | 'rsvpList' |
    'createdAt' | 'updatedAt'>]. *)
Record EventData := {
  in_title : string;
  in_type : EventType;
  in_dateTime : Date;
  in_duration : Z;
  in_location : EventLocation;
  in_difficulty : DifficultyLevel;
  in_imageURL : option string;
  in_description : string;
  in_shortDescription : string;
}.

(** The [newEvent] object of [createEvent]: [eventData] spread first, the
    seven properties written after it. *)
Record NewEvent := {
  new_eventData : EventData;
  new_hostId : string;
  new_hostName : string;
  new_rsvpCount : Z;
  new_rsvpList : list string;
  new_createdAt : Z;
  new_updatedAt : Z;
}.

Inductive Request :=
  | ReqAddDoc (collection : string) (autoId : string) (data : NewEvent)
  | ReqUpdateDoc (collection : string) (docId : string) (data : UpdateData).

(** What Firestore does with the transforms, on the stored array:
    [arrayUnion] appends each element that is not present yet,
    [arrayRemove] removes every occurrence of each element. *)
Definition arrayUnion (elements : list string) (stored : list string) : list string :=
  fold_left (fun acc x => if bool_decide (x ∈ acc) then acc else acc ++ [x])
            elements stored.

Definition arrayRemove (elements : list string) (stored : list string) : list string :=
  List.filter (fun y => negb (bool_decide (y ∈ elements))) stored.

Definition with_rsvpList (l : list string) (d : EventDoc) : EventDoc :=
  {| d_id := d_id d; d_title := d_title d; d_type := d_type d;
     d_dateTime := d_dateTime d; d_duration := d_duration d;
     d_location := d_location d; d_difficulty := d_difficulty d;
     d_imageURL := d_imageURL d; d_description := d_description d;
     d_shortDescription := d_shortDescription d; d_hostId := d_hostId d;
     d_hostName := d_hostName d; d_rsvpCount := d_rsvpCount d;
     d_rsvpList := l;
     d_createdAt := d_createdAt d; d_updatedAt := d_updatedAt d |}.

Definition with_rsvpCount (n : Z) (d : EventDoc) : EventDoc :=
  {| d_id := d_id d; d_title := d_title d; d_type := d_type d;
     d_dateTime := d_dateTime d; d_duration := d_duration d;
     d_location := d_location d; d_difficulty := d_difficulty d;
     d_imageURL := d_imageURL d; d_description := d_description d;
     d_shortDescription := d_shortDescription d; d_hostId := d_hostId d;
     d_hostName := d_hostName d; d_rsvpCount := n;
     d_rsvpList := d_rsvpList d;
     d_createdAt := d_createdAt d; d_updatedAt := d_updatedAt d |}.

Definition with_updatedAt (t : Timestamp) (d : EventDoc) : EventDoc :=
  {| d_id := d_id d; d_title := d_title d; d_type := d_type d;
     d_dateTime := d_dateTime d; d_duration := d_duration d;
     d_location := d_location d; d_difficulty := d_difficulty d;
     d_imageURL := d_imageURL d; d_description := d_description d;
     d_shortDescription := d_shortDescription d; d_hostId := d_hostId d;
     d_hostName := d_hostName d; d_rsvpCount := d_rsvpCount d;
     d_rsvpList := d_rsvpList d;
     d_createdAt := d_createdAt d; d_updatedAt := t |}.

(** One property of an update applied to a stored body. Only the
    properties [toggleRSVP] writes are interpreted. *)
Definition applyField (d : EventDoc) (f : string * FieldValue) : EventDoc :=
  let '(name, v) := f in
  if String.eqb name "rsvpList" then
    match v with
    | FArrayUnion xs => with_rsvpList (arrayUnion xs (d_rsvpList d)) d
    | FArrayRemove xs => with_rsvpList (arrayRemove xs (d_rsvpList d)) d
    | _ => d
    end
  else if String.eqb name "rsvpCount" then
    match v with FNumber n => with_rsvpCount n d | _ => d end
  else if String.eqb name "updatedAt" then
    match v with FDate ms => with_updatedAt (fromMillis ms) d | _ => d end
  else d.

(** A committed [updateDoc]: all its properties, in one step. *)
Definition applyUpdate (data : UpdateData) (d : EventDoc) : EventDoc :=
  fold_left applyField data d.

(** ** Document references ([doc] of the Firestore SDK) *)

(** The character ['/']. *)
Definition slash : Ascii.ascii := Ascii.ascii_of_N 47.

(** [path.split('/').filter(segment => segment.length > 0)], reading
    [path] after the characters [current] of the segment at hand. *)
Fixpoint segmentsFrom (current : string) (path : string) : list string :=
  match path with
  | EmptyString => if truthy current then [current] else []
  | String c rest =>
      if Ascii.eqb c slash
      then (if truthy current then [current] else []) ++ segmentsFrom "" rest
      else segmentsFrom (current +:+ String c "") rest
  end.

Definition pathSegments (path : string) : list string := segmentsFrom "" path.

(** A [DocumentReference]: the segments of its path. [reference.id] is
    the last one, [reference.parent.path] the others joined by ['/']. *)
Record DocumentReference := { ref_segments : list string }.

Definition ref_id (reference : DocumentReference) : string :=
  List.last (ref_segments reference) "".

Definition ref_parent (reference : DocumentReference) : string :=
  String.concat "/" (removelast (ref_segments reference)).

(** [doc(db, path, pathSegment)]. The SDK refuses an empty [path] and a
    component that contains ['//'], splits the components at ['/']
    dropping empty segments, and refuses a path with an odd number of
    segments, which names a collection and not a document. *)
Definition doc (path pathSegment : string) : Evaluated DocumentReference :=
  if String.eqb path "" then
    Raises "Function doc() cannot be called with an empty path."
  else if includes path "//" then
    Raises ("Invalid segment (" +:+ path +:+ "). Paths must not contain // in them.")
  else if includes pathSegment "//" then
    Raises ("Invalid segment (" +:+ pathSegment +:+
            "). Paths must not contain // in them.")
  else
    let segments := pathSegments path ++ pathSegments pathSegment in
    if Nat.even (length segments) then Returns {| ref_segments := segments |}
    else
      Raises ("Invalid document reference. Document references must have an even " +:+
              "number of segments, but " +:+ String.concat "/" segments +:+
              " has " +:+ pretty (length segments) +:+ ".").

(** An identifier that is one path segment: not empty, no ['/']. The
    identifiers Firestore gives to documents are of this kind. *)
Fixpoint noSlash (s : string) : bool :=
  match s with
  | EmptyString => true
  | String c rest => negb (Ascii.eqb c slash) && noSlash rest
  end.

Definition documentId (s : string) : bool := truthy s && noSlash s.

(** ** The provider: state, effects and operations *)

(** What the provider's functions read and write: the two [useState]
    cells, the device's [AsyncStorage], and the writes sent to Firestore
    so far (oldest first). *)
Record World := {
  events : list Event;
  loading : bool;
  asyncStorage : gmap string string;
  requests : list Request;
}.

Definition initialWorld (stored : gmap string string) : World :=
  {| events := []; loading := true; asyncStorage := stored; requests := [] |}.

(** How a call of an [async] function ends: normally with a value, by
    throwing an [Error] with a message, or not at all, when a promise it
    awaits never settles. *)
Inductive Completion (A : Type) :=
  | Normal (a : A)
  | Throw (message : string)
  | Pending.
Arguments Normal {A} a.
Arguments Throw {A} message.
Arguments Pending {A}.

Definition Prog (A : Type) : Type := World -> Completion A * World.

#[global] Instance Prog_ret : MRet Prog := fun A a w => (Normal a, w).

#[global] Instance Prog_bind : MBind Prog := fun A B f m w =>
  match m w with
  | (Normal a, w') => f a w'
  | (Throw msg, w') => (Throw msg, w')
  | (Pending, w') => (Pending, w')
  end.

Definition throw {A} (message : string) : Prog A := fun w => (Throw message, w).

(** [try { body } catch (error) { handler(error.message) }]. A body that
    waits for ever never reaches the handler. *)
Definition try_catch {A} (body : Prog A) (handler : string -> Prog A) : Prog A :=
  fun w =>
    match body w with
    | (Normal a, w') => (Normal a, w')
    | (Throw msg, w') => handler msg w'
    | (Pending, w') => (Pending, w')
    end.

Definition getEventsState : Prog (list Event) := fun w => (Normal (events w), w).

Definition setEvents (l : list Event) : Prog unit := fun w =>
  (Normal tt, {| events := l; loading := loading w;
                 asyncStorage := asyncStorage w; requests := requests w |}).

Definition setLoading (b : bool) : Prog unit := fun w =>
  (Normal tt, {| events := events w; loading := b;
                 asyncStorage := asyncStorage w; requests := requests w |}).

(** The awaited calls of [AsyncStorage]. Whether the storage accepts a
    call is not decided by this program: [failure] is [None] when it
    does, and the message of the rejection otherwise. *)
Definition AsyncStorage_getItem (failure : option string) (key : string)
    : Prog (option string) := fun w =>
  match failure with
  | Some msg => (Throw msg, w)
  | None => (Normal (asyncStorage w !! key), w)
  end.

Definition AsyncStorage_setItem (failure : option string) (key value : string)
    : Prog unit := fun w =>
  match failure with
  | Some msg => (Throw msg, w)
  | None => (Normal tt, {| events := events w; loading := loading w;
                           asyncStorage := <[key := value]> (asyncStorage w);
                           requests := requests w |})
  end.

(** What becomes of the promise of a Firestore write, which this program
    does not decide either: the backend acknowledges the write, it
    refuses it with a message, or, with the device offline, the write
    stays queued and the promise is never settled. *)
Inductive Settlement :=
  | Fulfilled
  | Rejected (message : string)
  | NeverSettled.

Definition send (settlement : Settlement) (r : Request) : Prog unit := fun w =>
  (match settlement with
   | Fulfilled => Normal tt
   | Rejected msg => Throw msg
   | NeverSettled => Pending
   end,
   {| events := events w; loading := loading w;
      asyncStorage := asyncStorage w; requests := requests w ++ [r] |}).

Definition updateDoc (settlement : Settlement) (reference : DocumentReference)
    (data : UpdateData) : Prog unit :=
  send settlement (ReqUpdateDoc (ref_parent reference) (ref_id reference) data).

Definition addDoc (settlement : Settlement) (collection autoId : string)
    (data : NewEvent) : Prog unit :=
  send settlement (ReqAddDoc collection autoId data).

(** An expression evaluated inside a function body. *)
Definition eval {A} (e : Evaluated A) : Prog A := fun w =>
  (match e with Returns a => Normal a | Raises msg => Throw msg end, w).

(** The writes a call sent: what [after] holds beyond [before]. *)
Definition sentBy (before after : World) : list Request :=
  drop (length (requests before)) (requests after).

Section Provider.
(** [JSON.stringify] on the event list, a built-in. *)
Variable JSON_stringify : list Event -> string.

(** The value of
    [JSON.parse(cachedEvents).map(event => ({...event, dateTime: new
    Date(event.dateTime), createdAt: new Date(event.createdAt),
    updatedAt: new Date(event.updatedAt)}))] on a stored string: the
    revived list, or the error its evaluation throws (a [SyntaxError]
    of [JSON.parse], a [TypeError] when the parsed value has no [map]
    or an element is [null]). *)
Variable parseCachedEvents : string -> Evaluated (list Event).

Definition loadCachedEvents (getItemFailure : option string) : Prog unit :=
  try_catch
    (cachedEvents ← AsyncStorage_getItem getItemFailure "events";
     match cachedEvents with
     | Some cached =>
         if truthy cached then
           parsed ← eval (parseCachedEvents cached);
           setEvents parsed
         else mret tt
     | None => mret tt
     end)
    (fun _ => mret tt).

Definition cacheEvents (setItemFailure : option string) (eventsData : list Event)
    : Prog unit :=
  try_catch
    (AsyncStorage_setItem setItemFailure "events" (JSON_stringify eventsData))
    (fun _ => mret tt).

(** One round of [snapshot.forEach(doc => eventsData.push({...}))]: the
    document is decoded and pushed, unless an earlier round or this
    decoding raised an error. *)
Definition pushDecoded (pushed : Evaluated (list Event)) (doc : QueryDocumentSnapshot)
    : Evaluated (list Event) :=
  eventsData ← pushed;
  event ← decodeDocument (doc_id doc) (doc_data doc);
  Returns (eventsData ++ [event]).

(** The whole loop, from an empty [eventsData]: the decoded documents in
    the order of the snapshot, or the error of the first document that
    does not decode. *)
Definition decodeSnapshot (snapshot : list QueryDocumentSnapshot)
    : Evaluated (list Event) :=
  fold_left pushDecoded snapshot (Returns []).

(** The two callbacks given to [onSnapshot]. An error raised while the
    documents are decoded leaves the first before it has set anything. *)
Definition onSnapshotNext (setItemFailure : option string)
    (snapshot : list QueryDocumentSnapshot) : Prog unit :=
  eventsData ← eval (decodeSnapshot snapshot);
  setEvents eventsData;;
  setLoading false;;
  cacheEvents setItemFailure eventsData.

Definition onSnapshotError : Prog unit := setLoading false.

Definition refreshEvents : Prog unit := setLoading true.

Definition createEvent (user : option User) (eventData : EventData)
    (now1 now2 : Z) (autoId : string) (settlement : Settlement) : Prog unit :=
  match user with
  | None => throw "User must be logged in"
  | Some user =>
      if negb (bool_decide (role user = RoleOrganizer))
      then throw "Only organizers can create events"
      else
        try_catch
          (let newEvent :=
             {| new_eventData := eventData;
                new_hostId := uid user;
                new_hostName := displayName user;
                new_rsvpCount := 0;
                new_rsvpList := [];
                new_createdAt := now1;
                new_updatedAt := now2 |} in
           addDoc settlement "events" autoId newEvent)
          (fun message => throw message)
  end.

Definition toggleRSVP (user : option User) (eventId : string) (now : Z)
    (settlement : Settlement) : Prog unit :=
  match user with
  | None => throw "User must be logged in"
  | Some user =>
      try_catch
        (eventRef ← eval (doc "events" eventId);
         events ← getEventsState;
         match List.find (fun e => String.eqb (id e) eventId) events with
         | None => throw "Event not found"
         | Some event =>
             let isRSVPed := existsb (String.eqb (uid user)) (rsvpList event) in
             if isRSVPed then
               updateDoc settlement eventRef
                 [("rsvpList", FArrayRemove [uid user]);
                  ("rsvpCount", FNumber (rsvpCount event - 1));
                  ("updatedAt", FDate now)]
             else
               updateDoc settlement eventRef
                 [("rsvpList", FArrayUnion [uid user]);
                  ("rsvpCount", FNumber (rsvpCount event + 1));
                  ("updatedAt", FDate now)]
         end)
        (fun message => throw message)
  end.

End Provider.

(** ** The [events] collection and the round trip of a write *)

(** What Firestore stores for an added event: dates become timestamps.
    An invalid [Date] has no timestamp, and the write is refused. *)
Definition storeNewEvent (n : NewEvent) : option EventDoc :=
  ms ← in_dateTime (new_eventData n);
  Some {| d_id := None;
          d_title := in_title (new_eventData n);
          d_type := in_type (new_eventData n);
          d_dateTime := fromMillis ms;
          d_duration := in_duration (new_eventData n);
          d_location := in_location (new_eventData n);
          d_difficulty := in_difficulty (new_eventData n);
          d_imageURL := in_imageURL (new_eventData n);
          d_description := in_description (new_eventData n);
          d_shortDescription := in_shortDescription (new_eventData n);
          d_hostId := new_hostId n;
          d_hostName := new_hostName n;
          d_rsvpCount := new_rsvpCount n;
          d_rsvpList := new_rsvpList n;
          d_createdAt := fromMillis (new_createdAt n);
          d_updatedAt := fromMillis (new_updatedAt n) |}.

(** A write that Firestore accepted, on the [events] collection (document
    identifier to body). [updateDoc] changes an existing document only. *)
Definition commit (b : gmap string EventDoc) (r : Request) : gmap string EventDoc :=
  match r with
  | ReqAddDoc collection autoId data =>
      if String.eqb collection "events" then
        match storeNewEvent data with
        | Some d => <[autoId := d]> b
        | None => b
        end
      else b
  | ReqUpdateDoc collection docId data =>
      if String.eqb collection "events" then
        match b !! docId with
        | Some d => <[docId := applyUpdate data d]> b
        | None => b
        end
      else b
  end.

(** Chronological order of two stored documents. *)
Definition stored_le (a b : string * EventDoc) : Prop :=
  ts_le (d_dateTime (snd a)) (d_dateTime (snd b)).

#[global] Instance stored_le_dec : RelDecision stored_le.
Proof. intros a b. unfold stored_le. apply _. Defined.

(** A stored document as a snapshot presents it. *)
Definition snapshotOf (p : string * EventDoc) : QueryDocumentSnapshot :=
  {| doc_id := fst p; doc_data := dataOf (snd p) |}.

(** [query(collection(db, 'events'), orderBy('dateTime', 'asc'))]: every
    document of the collection, by ascending [dateTime]. *)
Definition queryEvents (b : gmap string EventDoc) : list QueryDocumentSnapshot :=
  snapshotOf <$> merge_sort stored_le (map_to_list b).

(** The events a client decodes from the collection. *)
Definition eventsOf (b : gmap string EventDoc) : list Event :=
  (fun p => decodeEvent (fst p) (snd p)) <$> merge_sort stored_le (map_to_list b).

(** The order of that query between two documents whose [dateTime]
    fields hold timestamps; where the query places other values plays no
    part below. *)
Definition doc_le (a b : QueryDocumentSnapshot) : Prop :=
  match d_dateTime (doc_data a), d_dateTime (doc_data b) with
  | Some (VTimestamp x), Some (VTimestamp y) => ts_le x y
  | _, _ => True
  end.

(** A snapshot in the order of that query. *)
Definition queryOrdered (snapshot : list QueryDocumentSnapshot) : Prop :=
  StronglySorted doc_le snapshot.

(** The in-memory list in ascending [dateTime] order. *)
Definition dateTime_le (a b : Event) : Prop := date_le (dateTime a) (dateTime b) = true.

Definition sortedByDateTime (l : list Event) : Prop := StronglySorted dateTime_le l.

(** The attendance invariant, on a decoded event and on a stored body. *)
Definition rsvpConsistent (e : Event) : Prop :=
  rsvpCount e = Z.of_nat (length (rsvpList e)).

Definition docConsistent (d : EventDoc) : Prop :=
  d_rsvpCount d = Z.of_nat (length (d_rsvpList d)).

(** A write that carries the attendee list and the counter together. *)
Definition writesBothRsvpFields (r : Request) : bool :=
  match r with
  | ReqUpdateDoc _ _ data =>
      bool_decide ("rsvpList" ∈ data.*1) && bool_decide ("rsvpCount" ∈ data.*1)
  | ReqAddDoc _ _ _ => true
  end.

(** The update a toggle by [u] computes from the in-memory [event]: the
    argument of the [updateDoc] of the branch taken. *)
Definition toggleUpdate (u : User) (event : Event) (now : Z) : UpdateData :=
  [("rsvpList",
    if bool_decide (uid u ∈ rsvpList event)
    then FArrayRemove [uid u] else FArrayUnion [uid u]);
   ("rsvpCount",
    FNumber (if bool_decide (uid u ∈ rsvpList event)
             then rsvpCount event - 1 else rsvpCount event + 1));
   ("updatedAt", FDate now)].

Section RoundTrip.
Variable JSON_stringify : list Event -> string.

Record System := { backend : gmap string EventDoc; client : World }.

(** The subscription delivers the current result of the query. *)
Definition deliver (setItemFailure : option string) (s : System) : System :=
  {| backend := backend s;
     client := snd (onSnapshotNext JSON_stringify setItemFailure
                      (queryEvents (backend s)) (client s)) |}.

(** One press of the RSVP button: who presses, on which event, the
    clock, what becomes of the write and whether the device storage
    accepts the call that follows. *)
Record Toggle := {
  by_user : User;
  on_event : string;
  at_time : Z;
  write_settlement : Settlement;
  cache_failure : option string;
}.

(** [toggleRSVP] runs on the client; the write it sent, when the backend
    acknowledged it, is committed; the subscription echoes the
    collection back. The round is that of a device that is online: what
    a device shows while a write stays queued is not described. *)
Definition rsvpRound (t : Toggle) (s : System) : System :=
  let w := snd (toggleRSVP (Some (by_user t)) (on_event t) (at_time t)
                  (write_settlement t) (client s)) in
  let sent := drop (length (requests (client s))) (requests w) in
  let b := match write_settlement t with
           | Fulfilled => fold_left commit sent (backend s)
           | _ => backend s
           end in
  deliver (cache_failure t) {| backend := b; client := w |}.

(** The states after each toggle of a sequence. *)
Fixpoint rsvpTrace (ts : list Toggle) (s : System) : list System :=
  match ts with
  | [] => []
  | t :: rest => let s' := rsvpRound t s in s' :: rsvpTrace rest s'
  end.

(** Client and collection agree, and every stored event is consistent. *)
Record Synced (s : System) : Prop := {
  synced_events :
    decodeSnapshot (queryEvents (backend s)) = Returns (events (client s));
  synced_consistent : forall i d, backend s !! i = Some d ->
      docConsistent d /\ NoDup (d_rsvpList d);
  synced_ids : forall i d, backend s !! i = Some d ->
      d_id d = None \/ d_id d = Some i;
}.

End RoundTrip.

(** Every stored event and every in-memory event has
    [rsvpCount = |rsvpList|] and an [rsvpList] without duplicates. *)
Definition attendanceInvariant (s : System) : Prop :=
  (forall i d, backend s !! i = Some d ->
     d_rsvpCount d = Z.of_nat (length (d_rsvpList d)) /\ NoDup (d_rsvpList d)) /\
  (forall e, e ∈ events (client s) ->
     rsvpCount e = Z.of_nat (length (rsvpList e)) /\ NoDup (rsvpList e)).

(** Every write sent between [s] and [s'] carries both fields. *)
Definition sentTogether (s s' : System) : Prop :=
  exists sent,
    requests (client s') = requests (client s) ++ sent /\
    Forall (fun r => writesBothRsvpFields r = true) sent.

(** ** Sample data (the fixtures of [__tests__/rsvp.test.ts]) *)

Definition mockLocation : EventLocation :=
  {| address := "Test Park, Test City";
     coordinates := {| latitude := Qmake 407128 10000;
                       longitude := Qmake (-740060) 10000 |} |}.

(** The stored form of [createMockEvent({ rsvpCount, rsvpList })]. *)
Definition mockDoc (count : Z) (attendees : list string) : EventDoc :=
  {| d_id := None;
     d_title := "Test Yoga Session";
     d_type := Yoga;
     d_dateTime := {| seconds := 1764612000; nanoseconds := 0 |};
     d_duration := 60;
     d_location := mockLocation;
     d_difficulty := Beginner;
     d_imageURL := Some "";
     d_description := "Test event description";
     d_shortDescription := "Test short description";
     d_hostId := "host-user-id";
     d_hostName := "Test Organizer";
     d_rsvpCount := count;
     d_rsvpList := attendees;
     d_createdAt := {| seconds := 1735725600; nanoseconds := 0 |};
     d_updatedAt := {| seconds := 1735725600; nanoseconds := 0 |} |}.

Definition mockUser (userId : string) (r : Role) : User :=
  {| uid := userId; email := "test@test.com"; displayName := "Test User";
     photoURL := None; bio := None; role := r;
     user_createdAt := Some 1735725600000; user_updatedAt := Some 1735725600000 |}.

(** A stand-in for [JSON.stringify] in the examples: the identifiers of
    the events, separated by commas. *)
Definition sampleStringify (l : list Event) : string := String.concat "," (id <$> l).

(** A client that has received the collection [b]. *)
Definition syncedSystem (b : gmap string EventDoc) : System :=
  deliver sampleStringify None {| backend := b; client := initialWorld ∅ |}.

Definition sampleToggle (userId eventId : string) : Toggle :=
  {| by_user := mockUser userId RoleUser; on_event := eventId;
     at_time := 1764600000000; write_settlement := Fulfilled;
     cache_failure := None |}.

(** A body that carries an [id] field of its own, different from the
    identifier of the document that holds it. *)
Definition shadowedDoc : EventDoc :=
  {| d_id := Some "copied-from-elsewhere";
     d_title := "Test Yoga Session";
     d_type := Yoga;
     d_dateTime := {| seconds := 1764612000; nanoseconds := 0 |};
     d_duration := 60;
     d_location := mockLocation;
     d_difficulty := Beginner;
     d_imageURL := None;
     d_description := "Test event description";
     d_shortDescription := "Test short description";
     d_hostId := "host-user-id";
     d_hostName := "Test Organizer";
     d_rsvpCount := 0;
     d_rsvpList := [];
     d_createdAt := {| seconds := 1735725600; nanoseconds := 0 |};
     d_updatedAt := {| seconds := 1735725600; nanoseconds := 0 |} |}.

(** Stand-ins for [toLowerCase] and [trim] on ASCII text, for the
    examples. *)
Definition lowerChar (c : Ascii.ascii) : Ascii.ascii :=
  let n := Ascii.N_of_ascii c in
  if ((65 <=? n) && (n <=? 90))%N then Ascii.ascii_of_N (n + 32) else c.

Fixpoint asciiLower (s : string) : string :=
  match s with
  | EmptyString => EmptyString
  | String c rest => String (lowerChar c) (asciiLower rest)
  end.

Fixpoint dropSpaces (s : string) : string :=
  match s with
  | String c rest => if Ascii.eqb c (Ascii.ascii_of_N 32) then dropSpaces rest else s
  | EmptyString => s
  end.

Definition asciiTrim (s : string) : string :=
  String.rev (dropSpaces (String.rev (dropSpaces s))).

Definition sampleEvent (eventId ttl : string) (ty : EventType)
    (diff : DifficultyLevel) (ms : Z) : Event :=
  {| id := eventId; title := ttl; type := ty; dateTime := Some ms;
     duration := 60; location := mockLocation; difficulty := diff;
     imageURL := None; description := "Test event description";
     shortDescription := "Test short description";
     hostId := "host-user-id"; hostName := "Test Organizer";
     rsvpCount := 0; rsvpList := [];
     createdAt := Some 1735725600000; updatedAt := Some 1735725600000 |}.

Definition sampleFeed : list Event :=
  [sampleEvent "e1" "Morning Yoga" Yoga Beginner 1764612000000;
   sampleEvent "e2" "City Run" Run Beginner 1764698400000;
   sampleEvent "e3" "Sunset YOGA flow" Yoga Advanced 1764784800000;
   sampleEvent "e4" "Friendly Match" Match Mixed 1764871200000].

Definition sampleEventData : EventData :=
  {| in_title := "Morning Yoga"; in_type := Yoga; in_dateTime := Some 1764612000000;
     in_duration := 60; in_location := mockLocation; in_difficulty := Beginner;
     in_imageURL := None; in_description := "Test event description";
     in_shortDescription := "Test short description" |}.

(** A stand-in for the decoding of the cached text in the examples: the
    text ["[]"] decodes to the empty list, anything else fails. *)
Definition sampleParse (cached : string) : Evaluated (list Event) :=
  if String.eqb cached "[]" then Returns [] else Raises "Unexpected token".

(** A client in sync with a collection of one event, two attendees. *)
Definition sampleSystem : System :=
  syncedSystem {["E1" := mockDoc 2 ["u1"; "u2"]]}.

Definition sampleSnapshot : list QueryDocumentSnapshot :=
  [{| doc_id := "E1"; doc_data := dataOf (mockDoc 2 ["u1"; "u2"]) |};
   {| doc_id := "E2";
      doc_data := dataOf (with_updatedAt {| seconds := 1764612000; nanoseconds := 5 |}
                            (mockDoc 0 [])) |}].

(** A snapshot whose second document was written without [updatedAt]. *)
Definition malformedSnapshot : list QueryDocumentSnapshot :=
  [{| doc_id := "E1"; doc_data := dataOf (mockDoc 2 ["u1"; "u2"]) |};
   {| doc_id := "E2";
      doc_data := bodyWith (Some (VTimestamp {| seconds := 1764698400; nanoseconds := 0 |}))
                    (Some (VTimestamp {| seconds := 1735725600; nanoseconds := 0 |}))
                    None (mockDoc 0 []) |}].

(** A client holding an older list and an older cache entry. *)
Definition staleWorld : World :=
  {| events := sampleFeed; loading := true;
     asyncStorage := {["events" := "stale"]}; requests := [] |}.

(** A fresh client over a cache entry that does not decode. *)
Definition corruptCacheWorld : World := initialWorld {["events" := "{not json"]}.

Definition sampleOrganizer : User := mockUser "host-user-id" RoleOrganizer.

(** Two devices that both show the collection of [sampleSystem]. On the
    first [u3] presses RSVP, on the second, before the echo of that
    write has reached it, [u4] does; Firestore accepts both writes, in
    that order. *)
Definition firstWrite : list Request :=
  sentBy (client sampleSystem)
    (snd (toggleRSVP (Some (mockUser "u3" RoleUser)) "E1" 1764600000000 Fulfilled
            (client sampleSystem))).

Definition secondWrite : list Request :=
  sentBy (client sampleSystem)
    (snd (toggleRSVP (Some (mockUser "u4" RoleUser)) "E1" 1764600001000 Fulfilled
            (client sampleSystem))).

Definition afterFirstWrite : gmap string EventDoc :=
  fold_left commit firstWrite (backend sampleSystem).

Definition afterBothWrites : gmap string EventDoc :=
  fold_left commit secondWrite afterFirstWrite.

(** A collection in which the body of document ["a"] carries the [id] of
    document ["b"]; ["a"] starts earlier and so comes first in the list. *)
Definition shadowingSystem : System :=
  syncedSystem
    {["a" := {| d_id := Some "b";
                d_title := "Morning Yoga"; d_type := Yoga;
                d_dateTime := {| seconds := 1764000000; nanoseconds := 0 |};
                d_duration := 60; d_location := mockLocation;
                d_difficulty := Beginner; d_imageURL := None;
                d_description := "Test event description";
                d_shortDescription := "Test short description";
                d_hostId := "host-user-id"; d_hostName := "Test Organizer";
                d_rsvpCount := 0; d_rsvpList := [];
                d_createdAt := {| seconds := 1735725600; nanoseconds := 0 |};
                d_updatedAt := {| seconds := 1735725600; nanoseconds := 0 |} |};
      "b" := mockDoc 1 ["u1"]]}.

(** A collection in which the body of document ["c"] carries the empty
    string as [id]. *)
Definition blankIdSystem : System :=
  syncedSystem
    {["c" := {| d_id := Some "";
                d_title := "Morning Yoga"; d_type := Yoga;
                d_dateTime := {| seconds := 1764000000; nanoseconds := 0 |};
                d_duration := 60; d_location := mockLocation;
                d_difficulty := Beginner; d_imageURL := None;
                d_description := "Test event description";
                d_shortDescription := "Test short description";
                d_hostId := "host-user-id"; d_hostName := "Test Organizer";
                d_rsvpCount := 1; d_rsvpList := ["u1"];
                d_createdAt := {| seconds := 1735725600; nanoseconds := 0 |};
                d_updatedAt := {| seconds := 1735725600; nanoseconds := 0 |} |}]}.

(** ** The filter modal ([components/FilterModal.tsx]) *)

(** [handleClear]: the filters it hands to [onApplyFilters]. *)
Definition clearedFilters : Filters :=
  {| flt_type := None; flt_difficulty := None; flt_dateRange := None |}.

(** A press on a type option:
    [{ ...localFilters, type: localFilters.type === type ? null : type }]. *)
Definition pressType (t : EventType) (localFilters : Filters) : Filters :=
  {| flt_type := if bool_decide (flt_type localFilters = Some t) then None else Some t;
     flt_difficulty := flt_difficulty localFilters;
     flt_dateRange := flt_dateRange localFilters |}.

(** A press on a difficulty option. *)
Definition pressDifficulty (d : DifficultyLevel) (localFilters : Filters) : Filters :=
  {| flt_type := flt_type localFilters;
     flt_difficulty :=
       if bool_decide (flt_difficulty localFilters = Some d) then None else Some d;
     flt_dateRange := flt_dateRange localFilters |}.

(** [handleDateRangeToggle] at clock reading [now]: a set range is
    dropped, an unset one becomes the seven days from now. *)
Definition handleDateRangeToggle (now : Z) (localFilters : Filters) : Filters :=
  match flt_dateRange localFilters with
  | Some _ =>
      {| flt_type := flt_type localFilters;
         flt_difficulty := flt_difficulty localFilters;
         flt_dateRange := None |}
  | None =>
      let today := Some now in
      let nextWeek := Some (now + 7 * 24 * 60 * 60 * 1000) in
      {| flt_type := flt_type localFilters;
         flt_difficulty := flt_difficulty localFilters;
         flt_dateRange := Some {| start := today; end_ := nextWeek |} |}
  end.

(** The filters [F'] ask for what [F] asks for, and possibly more. *)
Definition narrows (F' F : Filters) : Prop :=
  (flt_type F = None \/ flt_type F' = flt_type F) /\
  (flt_difficulty F = None \/ flt_difficulty F' = flt_difficulty F) /\
  (flt_dateRange F = None \/ flt_dateRange F' = flt_dateRange F).

(** ** The My Events screen ([app/(tabs)/events.tsx]) *)

Inductive Tab := TabRsvped | TabOrganized.

(** The comparator of the sort:
    [new Date(a.dateTime).getTime() - new Date(b.dateTime).getTime()],
    NaN ([None]) when a date is invalid. *)
Definition compareByTime (a b : Event) : option Z :=
  match dateTime a, dateTime b with
  | Some x, Some y => Some (x - y)
  | _, _ => None
  end.

(** [Array.prototype.sort(comparefn)]. The language fixes the result
    when the comparator is a consistent ordering: the elements in
    ascending order, equal ones in their original order. That result is
    computed here by insertion; a NaN from the comparator counts as 0.
    With an inconsistent comparator (here: with an invalid date among
    three or more) the order is left to the engine, and nothing below
    speaks about it. *)
Fixpoint sortInsert {A} (comparefn : A -> A -> option Z) (x : A) (l : list A) : list A :=
  match l with
  | [] => [x]
  | y :: rest =>
      match comparefn x y with
      | Some v => if 0 <? v then y :: sortInsert comparefn x rest else x :: l
      | None => x :: l
      end
  end.

Definition arraySort {A} (comparefn : A -> A -> option Z) (l : list A) : list A :=
  foldr (sortInsert comparefn) [] l.

(** The effect that recomputes [myEvents]: the value of the state cell
    after it ran. Without a user it returns before touching the cell. *)
Definition myEventsEffect (user : option User) (activeTab : Tab)
    (allEvents : list Event) (myEvents : list Event) : list Event :=
  match user with
  | None => myEvents
  | Some user =>
      let filteredEvents :=
        match activeTab with
        | TabRsvped =>
            List.filter (fun event => existsb (String.eqb (uid user)) (rsvpList event))
              allEvents
        | TabOrganized =>
            List.filter (fun event => String.eqb (hostId event) (uid user)) allEvents
        end in
      arraySort compareByTime filteredEvents
  end.

(** ** Date helpers ([utils/dateHelpers.ts]) *)

(** A number that is an integer or NaN ([None]), in a template literal.
    Integers print in decimal (below 10^21 in magnitude, which every
    count of milliseconds or minutes here is). *)
Definition numberToString (n : option Z) : string :=
  match n with
  | Some z => pretty z
  | None => "NaN"
  end.

(** [a <= b] and [a > b] on such numbers: false when [a] is NaN. *)
Definition num_leb (a : option Z) (b : Z) : bool :=
  match a with Some x => x <=? b | None => false end.

Definition num_gtb (a : option Z) (b : Z) : bool :=
  match a with Some x => b <? x | None => false end.

Definition formatEventDuration (minutes : Z) : string :=
  if minutes <? 60 then pretty minutes +:+ "min"
  else
    let hours := minutes / 60 in
    let remainingMinutes := Z.rem minutes 60 in
    if remainingMinutes =? 0 then pretty hours +:+ "h"
    else pretty hours +:+ "h " +:+ pretty remainingMinutes +:+ "min".

(** [eventDate.getTime() > Date.now()]. *)
Definition isEventUpcoming (eventDate : Date) (now : Z) : bool :=
  num_gtb eventDate now.

Definition getTimeUntilEvent (eventDate : Date) (now : Z) : string :=
  let timeDiff := (fun t => t - now) <$> eventDate in
  if num_leb timeDiff 0 then "Event has started"
  else
    let days := (fun x => x / (1000 * 60 * 60 * 24)) <$> timeDiff in
    let hours :=
      (fun x => Z.rem x (1000 * 60 * 60 * 24) / (1000 * 60 * 60)) <$> timeDiff in
    let minutes := (fun x => Z.rem x (1000 * 60 * 60) / (1000 * 60)) <$> timeDiff in
    if num_gtb days 0 then
      numberToString days +:+ "d " +:+ numberToString hours +:+ "h"
    else if num_gtb hours 0 then
      numberToString hours +:+ "h " +:+ numberToString minutes +:+ "m"
    else numberToString minutes +:+ "m".

(** The characters of a printed integer: decimal digits and the sign. *)
Definition plainChar (c : Ascii.ascii) : bool :=
  let n := Ascii.N_of_ascii c in
  (((48 <=? n) && (n <=? 57)) || (n =? 45))%N.

Fixpoint plainText (s : string) : bool :=
  match s with
  | EmptyString => true
  | String c rest => plainChar c && plainText rest
  end.

(** ** Callers of [toggleRSVP] *)

(** [Alert.alert(title, message)]. *)
Record Alert := { alert_title : string; alert_message : string }.

(** What it takes for a call of [toggleRSVP] to get to its write: a
    signed-in caller, an identifier that [doc] accepts, and an event of
    the in-memory list under that identifier. *)
Definition reachesWrite (user : option User) (eventId : string) (w : World) : Prop :=
  user <> None /\ (exists reference, doc "events" eventId = Returns reference) /\
  eventId ∈ id <$> events w.

Definition loginRequired : Alert :=
  {| alert_title := "Login Required";
     alert_message := "Please log in to RSVP to events" |}.

Definition rsvpFailed : Alert :=
  {| alert_title := "Error"; alert_message := "Failed to update RSVP" |}.

(** [handleRSVP] of the events feed: the alert it shows, if any. The
    screen and the provider read the same signed-in user. *)
Definition feed_handleRSVP (user : option User) (eventId : string) (now : Z)
    (settlement : Settlement) : Prog (option Alert) :=
  match user with
  | None => mret (Some loginRequired)
  | Some _ =>
      try_catch
        (toggleRSVP user eventId now settlement;; mret None)
        (fun _ => mret (Some rsvpFailed))
  end.

(** The event details screen ([app/event/[id].tsx]): its [event] cell
    starts as [events.find(e => e.id === id)], and the effect on
    [events] replaces it only when the event is found again. *)
Definition detail_initialEvent (allEvents : list Event) (routeId : string)
    : option Event :=
  List.find (fun e => String.eqb (id e) routeId) allEvents.

Definition detail_onEvents (routeId : string) (event : option Event)
    (allEvents : list Event) : option Event :=
  match List.find (fun e => String.eqb (id e) routeId) allEvents with
  | Some updatedEvent => Some updatedEvent
  | None => event
  end.

(** [handleRSVP] of the details screen: how the call ends, with the
    alert it shows, if any; the screen's own [loading] cell, as the call
    leaves it; and the provider's state. The cell is set before the
    [try] and cleared in its [finally], which a call that waits for
    ever does not reach. *)
Definition detail_handleRSVP (user : option User) (event : option Event)
    (screenLoading : bool) (now : Z) (settlement : Settlement) (w : World)
    : Completion (option Alert) * bool * World :=
  match user with
  | None => (Normal (Some loginRequired), screenLoading, w)
  | Some _ =>
      match event with
      | None => (Normal None, screenLoading, w)
      | Some event =>
          let screenLoading := true in
          match toggleRSVP user (id event) now settlement w with
          | (Normal _, w') => (Normal None, false, w')
          | (Throw _, w') => (Normal (Some rsvpFailed), false, w')
          | (Pending, w') => (Pending, screenLoading, w')
          end
      end
  end.

(** ** The other decoders *)

(** The object literal of [getComments] (provider and service):
    [{ id: doc.id, ...data, createdAt: data.createdAt.toDate() }]. *)
Definition decodeCommentObject (docId : string) (data : DocumentData)
    : option DocumentData :=
  ca ← fieldToDate data "createdAt";
  Some (setProp "createdAt" (VDate ca) (spread (setProp "id" (VStr docId) ∅) data)).

(** [data.<field>?.toDate() || new Date()] of [FirebaseService.getUser]:
    a missing or [null] field gives the clock reading; a timestamp gives
    its date (an object, so never falsy); on any other value [toDate]
    is not a function and the call raises a [TypeError] ([None]). *)
Definition fieldToDateOrNow (data : DocumentData) (field : string) (now : Z)
    : option Date :=
  match data !! field with
  | None | Some VNull => Some (Some now)
  | Some (VTimestamp t) => Some (toDate t)
  | Some _ => None
  end.

(** The object literal of [FirebaseService.getUser]:
    [{ ...data, createdAt: ..., updatedAt: ... }]. *)
Definition decodeUserObject (data : DocumentData) (now1 now2 : Z)
    : option DocumentData :=
  ca ← fieldToDateOrNow data "createdAt" now1;
  ua ← fieldToDateOrNow data "updatedAt" now2;
  Some (setProp "updatedAt" (VDate ua) (setProp "createdAt" (VDate ca) (spread ∅ data))).

(** ** The round trip of a creation *)


(** ** Further sample data *)

Definition sampleComment : DocumentData :=
  {[ "id" := VStr "copied-from-elsewhere";
     "eventId" := VStr "E1";
     "userId" := VStr "u1";
     "content" := VStr "See you there";
     "createdAt" := VTimestamp {| seconds := 1735725600; nanoseconds := 0 |} ]}.

Definition sampleUserDoc : DocumentData :=
  {[ "displayName" := VStr "Test User";
     "role" := VStr "user";
     "createdAt" := VTimestamp {| seconds := 1735725600; nanoseconds := 0 |};
     "updatedAt" := VNull ]}.

Definition typeOnly : Filters :=
  {| flt_type := Some Yoga; flt_difficulty := None; flt_dateRange := None |}.

Definition typeAndDifficulty : Filters :=
  {| flt_type := Some Yoga; flt_difficulty := Some Beginner; flt_dateRange := None |}.

(** * Properties *)

(** ** Lists *)

Lemma filter_twice {A} (p q : A -> bool) (l : list A) :
  List.filter q (List.filter p l) = List.filter (fun x => p x && q x) l.
Proof.
  induction l as [|x l IH]; simpl; [done|].
  destruct (p x); simpl; [|done].
  destruct (q x); by rewrite IH.
Qed.

Lemma filter_same_twice {A} (p : A -> bool) (l : list A) :
  List.filter p (List.filter p l) = List.filter p l.
Proof.
  rewrite filter_twice. apply List.filter_ext. intros x. by destruct (p x).
Qed.

Lemma filter_all {A} (l : list A) : List.filter (fun _ => true) l = l.
Proof. induction l as [|x l IH]; simpl; by rewrite ?IH. Qed.

Lemma list_intersection_filter `{EqDecision A} (l k : list A) :
  list_intersection l k = List.filter (fun x => bool_decide (x ∈ k)) l.
Proof.
  induction l as [|x l IH]; simpl; [done|].
  rewrite IH. unfold bool_decide. by destruct (decide_rel elem_of x k).
Qed.

Lemma elem_of_bool_filter {A} (p : A -> bool) (l : list A) (x : A) :
  x ∈ List.filter p l <-> x ∈ l /\ p x = true.
Proof. rewrite !list_elem_of_In. apply List.filter_In. Qed.

Lemma append_cons (c : Ascii.ascii) (a b : string) :
  String c a +:+ b = String c (a +:+ b).
Proof. reflexivity. Qed.

Lemma append_assoc (a b c : string) : (a +:+ b) +:+ c = a +:+ (b +:+ c).
Proof. induction a as [|x a IH]; [done|]. by rewrite !append_cons, IH. Qed.

(** ** Document references *)

Lemma segmentsFrom_noSlash (current s : string) :
  noSlash s = true ->
  segmentsFrom current s
  = if truthy (current +:+ s) then [current +:+ s] else [].
Proof.
  revert current. induction s as [|c s IH]; intros current Hs.
  - cbn [segmentsFrom]. replace (current +:+ "") with current; [done|].
    clear. induction current as [|x a IH]; [done|]. by rewrite append_cons, <- IH.
  - cbn [noSlash] in Hs. apply andb_true_iff in Hs as [Hc Hs].
    apply negb_true_iff in Hc. cbn [segmentsFrom]. rewrite Hc, (IH _ Hs).
    by rewrite append_assoc.
Qed.

Lemma noSlash_includes (s : string) : noSlash s = true -> includes s "//" = false.
Proof.
  induction s as [|c s IH]; intros Hs; [done|].
  cbn [noSlash] in Hs. apply andb_true_iff in Hs as [Hc Hs].
  apply negb_true_iff in Hc. cbn [includes]. rewrite (IH Hs), orb_false_r.
  cbn [String.prefix]. destruct (Ascii.ascii_dec _ c) as [<-|_]; [|done].
  by vm_compute in Hc.
Qed.

(** [doc] accepts a document identifier and names the document of the
    collection that carries it. *)
Lemma doc_documentId (i : string) :
  documentId i = true ->
  doc "events" i = Returns {| ref_segments := ["events"; i] |}.
Proof.
  unfold documentId. intros Hi. apply andb_true_iff in Hi as [Hne Hs].
  unfold doc, pathSegments. rewrite (noSlash_includes _ Hs).
  rewrite (segmentsFrom_noSlash "" i Hs).
  change ("" +:+ i) with i. rewrite Hne. reflexivity.
Qed.

(** ** The feed filter *)

Section EventsFeedProperties.
Variable toLowerCase : string -> string.
Variable trim : string -> string.

Lemma applyFilters_passes (l : list Event) (q : string) (F : Filters) :
  applyFilters toLowerCase trim l q F = List.filter (passes toLowerCase trim q F) l.
Proof.
  transitivity (applyFilters toLowerCase trim (List.filter (fun _ => true) l) q F);
    [by rewrite filter_all|].
  unfold applyFilters, passes.
  destruct (truthy (trim q)), (flt_type F), (flt_difficulty F), (flt_dateRange F);
    rewrite ?filter_twice; apply List.filter_ext; intros ev; simpl.
  all: by rewrite ?andb_assoc, ?andb_true_r.
Qed.

(** C6. Filtering the result of the feed filter again, with the same
    search text and the same filters, gives that result back. *)
Theorem filter_idempotent (l : list Event) (q : string) (F : Filters) :
  applyFilters toLowerCase trim (applyFilters toLowerCase trim l q F) q F
  = applyFilters toLowerCase trim l q F.
Proof. rewrite !applyFilters_passes. apply filter_same_twice. Qed.

(** C7. With a type and a difficulty both set, the feed holds exactly
    the events, in the order of the input list, that are in the feed
    for the type alone and in the feed for the difficulty alone. The
    search text and the date range are the same in the three feeds, and
    may be unset. *)
Theorem filter_type_and_difficulty_is_intersection
    (l : list Event) (q : string) (dr : option DateRange)
    (T : EventType) (D : DifficultyLevel) :
  applyFilters toLowerCase trim l q
    {| flt_type := Some T; flt_difficulty := Some D; flt_dateRange := dr |}
  = list_intersection
      (applyFilters toLowerCase trim l q
         {| flt_type := Some T; flt_difficulty := None; flt_dateRange := dr |})
      (applyFilters toLowerCase trim l q
         {| flt_type := None; flt_difficulty := Some D; flt_dateRange := dr |}).
Proof.
  rewrite !applyFilters_passes, list_intersection_filter, filter_twice.
  apply List.filter_ext_in. intros e He. apply list_elem_of_In in He.
  match goal with |- _ = _ && bool_decide (e ∈ List.filter ?p l) =>
    replace (bool_decide (e ∈ List.filter p l)) with (p e)
  end.
  - unfold passes; simpl.
    destruct (if truthy (trim q) then searchMatch toLowerCase q e else true),
      (typeMatch T e), (difficultyMatch D e),
      (match dr with Some r => dateRangeMatch r e | None => true end); done.
  - destruct (passes _ _ _ _ e) eqn:Hp; symmetry.
    + apply bool_decide_eq_true_2, elem_of_bool_filter. done.
    + apply bool_decide_eq_false_2. rewrite elem_of_bool_filter.
      intros [_ Hp']. congruence.
Qed.

End EventsFeedProperties.

(** ** The provider's simple operations *)

Lemma find_absent (eventId : string) (l : list Event) :
  eventId ∉ id <$> l ->
  List.find (fun e => String.eqb (id e) eventId) l = None.
Proof.
  induction l as [|e l IH]; simpl; [done|].
  rewrite not_elem_of_cons. intros [Hne Hl].
  destruct (String.eqb_spec (id e) eventId) as [Heq|_]; [by destruct Hne|].
  by apply IH.
Qed.

(** [toggleRSVP] with a signed-in caller, when [doc] refuses the
    identifier and when the lookup finds nothing. *)
Lemma toggleRSVP_refused (w : World) (u : User) (eventId : string) (now : Z)
    (settlement : Settlement) (message : string) :
  doc "events" eventId = Raises message ->
  toggleRSVP (Some u) eventId now settlement w = (Throw message, w).
Proof.
  intros Hdoc. unfold toggleRSVP, try_catch, mbind, Prog_bind, eval.
  by rewrite Hdoc.
Qed.

Lemma toggleRSVP_not_found (w : World) (u : User) (eventId : string) (now : Z)
    (settlement : Settlement) (reference : DocumentReference) :
  doc "events" eventId = Returns reference ->
  List.find (fun e => String.eqb (id e) eventId) (events w) = None ->
  toggleRSVP (Some u) eventId now settlement w = (Throw "Event not found", w).
Proof.
  intros Hdoc Hfind.
  unfold toggleRSVP, try_catch, mbind, Prog_bind, eval, getEventsState.
  by rewrite Hdoc, Hfind.
Qed.

(** C5, as the code has it. With no signed-in caller [toggleRSVP] throws
    ['User must be logged in'] (the AuthenticationRequired failure). With
    a caller, the reference to the document is built first: when [doc]
    refuses the identifier (the empty one, one with ['//'], one with an
    odd number of further segments) the call throws the error of [doc];
    when [doc] accepts it and no event of the in-memory list carries it,
    the call throws ['Event not found'] (the NotFound failure). In each
    case the state it leaves is the state it found: no write was sent
    and the list is untouched. *)
Theorem toggleRSVP_failures (w : World) (user : option User) (eventId : string)
    (now : Z) (settlement : Settlement) :
  user = None \/ (exists refused, doc "events" eventId = Raises refused) \/
  eventId ∉ id <$> events w ->
  exists message,
    toggleRSVP user eventId now settlement w = (Throw message, w) /\
    (user = None -> message = "User must be logged in") /\
    (user <> None ->
       forall refused, doc "events" eventId = Raises refused -> message = refused) /\
    (user <> None ->
       (exists reference, doc "events" eventId = Returns reference) ->
       message = "Event not found").
Proof.
  intros H. destruct user as [u|].
  2:{ exists "User must be logged in". split_and!; done. }
  destruct (doc "events" eventId) as [reference|refused] eqn:Hdoc.
  - destruct H as [H|[[m H]|H]]; [done..|].
    exists "Event not found". split; [|split_and!; done].
    eapply toggleRSVP_not_found; [done|]. by apply find_absent.
  - exists refused. split; [by apply toggleRSVP_refused|].
    split_and!; [done|congruence|]. by intros _ [? ?].
Qed.

(** C5, as stated, fails: a signed-in caller and the empty identifier,
    which no event of the list carries. [doc] runs before the lookup and
    refuses it, and the error thrown is not ['Event not found']. *)
Lemma toggleRSVP_absent_id_need_not_be_NotFound :
  ~ (forall (w : World) (user : option User) (eventId : string) (now : Z)
            (settlement : Settlement),
       user = None \/ eventId ∉ id <$> events w ->
       exists message,
         toggleRSVP user eventId now settlement w = (Throw message, w) /\
         (user = None -> message = "User must be logged in") /\
         (user <> None -> message = "Event not found")) /\
  toggleRSVP (Some (mockUser "u3" RoleUser)) "" 1764600000000 Fulfilled (initialWorld ∅)
  = (Throw ("Invalid document reference. Document references must have an even " +:+
            "number of segments, but events has 1."),
     initialWorld ∅).
Proof.
  assert (Hrun : toggleRSVP (Some (mockUser "u3" RoleUser)) "" 1764600000000 Fulfilled
                   (initialWorld ∅)
                 = (Throw ("Invalid document reference. Document references must " +:+
                           "have an even number of segments, but events has 1."),
                    initialWorld ∅))
    by (by apply toggleRSVP_refused).
  split; [|exact Hrun]. intros H.
  destruct (H (initialWorld ∅) (Some (mockUser "u3" RoleUser)) "" 1764600000000
              Fulfilled) as (message & Hrun' & _ & Hmsg).
  { right. cbn. apply not_elem_of_nil. }
  rewrite (Hmsg ltac:(done)), Hrun in Hrun'. discriminate Hrun'.
Qed.

(** C9, as the code has it. [refreshEvents] sets the loading flag to
    [true]; the event list and the cache stay as they are and nothing is
    fetched or written. *)
Theorem refreshEvents_sets_loading (w : World) :
  refreshEvents w =
    (Normal tt, {| events := events w; loading := true;
                   asyncStorage := asyncStorage w; requests := requests w |}).
Proof. done. Qed.

(** C9, as stated, fails: after a snapshot has cleared the loading flag,
    [refreshEvents] raises it again. *)
Lemma refreshEvents_not_noop :
  ~ (forall w : World,
       let w' := snd (refreshEvents w) in
       events w' = events w /\ asyncStorage w' = asyncStorage w /\
       loading w' = loading w /\ requests w' = requests w).
Proof.
  intros H.
  specialize (H {| events := []; loading := false; asyncStorage := ∅; requests := [] |}).
  simpl in H. by destruct H as (_ & _ & ? & _).
Qed.

(** C10. [createEvent] throws, leaving the state as it found it, when
    there is no caller or the caller is not an organizer. For an
    organizer it sends one [addDoc] to the [events] collection, and the
    document has [rsvpCount = 0], [rsvpList = []], the caller's [uid] as
    [hostId] and the caller's [displayName] as [hostName]; what Firestore
    stores for it satisfies [rsvpCount = |rsvpList|]. *)
Theorem createEvent_organizer_only (w : World) (user : option User)
    (eventData : EventData) (now1 now2 : Z) (autoId : string)
    (settlement : Settlement) :
  (user = None \/ (exists u, user = Some u /\ role u <> RoleOrganizer) ->
     exists message,
       createEvent user eventData now1 now2 autoId settlement w = (Throw message, w)) /\
  (forall u, user = Some u -> role u = RoleOrganizer ->
     exists doc,
       let w' := snd (createEvent user eventData now1 now2 autoId settlement w) in
       requests w' = requests w ++ [ReqAddDoc "events" autoId doc] /\
       events w' = events w /\
       new_rsvpCount doc = 0 /\ new_rsvpList doc = [] /\
       new_hostId doc = uid u /\ new_hostName doc = displayName u /\
       new_eventData doc = eventData /\
       new_rsvpCount doc = Z.of_nat (length (new_rsvpList doc)) /\
       forall d, storeNewEvent doc = Some d ->
         docConsistent d /\ rsvpConsistent (decodeEvent autoId d)).
Proof.
  split.
  - intros [->|(u & -> & Hrole)].
    + by exists "User must be logged in".
    + exists "Only organizers can create events". unfold createEvent.
      by rewrite (bool_decide_eq_false_2 _ Hrole).
  - intros u -> Hrole. eexists. unfold createEvent.
    rewrite (bool_decide_eq_true_2 _ Hrole). simpl.
    unfold try_catch, addDoc, send. destruct settlement; simpl.
    all: split_and!; try reflexivity.
    all: intros d Hd; unfold storeNewEvent in Hd; simpl in Hd;
      destruct (in_dateTime eventData); by simplify_eq/=.
Qed.

(** ** Cache hydration *)

Section Hydration.
Variable parseCachedEvents : string -> Evaluated (list Event).

(** C8. Whatever the device storage holds or answers, [loadCachedEvents]
    completes normally. When the read is rejected, the key is absent or
    holds the empty string, or the stored text does not decode, the
    state is left as it was: a list that was empty stays empty. When
    the text decodes, the decoded list becomes the in-memory list. No
    write is sent and the storage is not touched. *)
Theorem loadCachedEvents_never_throws (getItemFailure : option string) (w : World) :
  exists w',
    loadCachedEvents parseCachedEvents getItemFailure w = (Normal tt, w') /\
    asyncStorage w' = asyncStorage w /\ requests w' = requests w /\
    loading w' = loading w /\
    (getItemFailure <> None \/ asyncStorage w !! "events" = None \/
     asyncStorage w !! "events" = Some "" \/
     (exists cached message, asyncStorage w !! "events" = Some cached /\
        parseCachedEvents cached = Raises message) ->
       w' = w /\ (events w = [] -> events w' = [])) /\
    (forall cached parsed,
       getItemFailure = None -> asyncStorage w !! "events" = Some cached ->
       cached <> "" -> parseCachedEvents cached = Returns parsed ->
       events w' = parsed).
Proof.
  unfold loadCachedEvents, try_catch, mbind, Prog_bind, AsyncStorage_getItem.
  destruct getItemFailure as [msg|].
  { exists w. by split_and!. }
  destruct (asyncStorage w !! "events") as [cached|] eqn:Hget; simpl.
  2:{ exists w. by split_and!. }
  unfold truthy. destruct (String.eqb_spec cached "") as [->|Hne]; simpl.
  { exists w. split_and!; try done. intros c p _ ? Hc. congruence. }
  unfold eval. destruct (parseCachedEvents cached) as [parsed|msg] eqn:Hparse; simpl.
  - eexists. split_and!; try reflexivity.
    + intros [?|[?|[?|(c & m & ? & Hc)]]]; simplify_eq; congruence.
    + intros c p _ ? _ Hp. simpl. congruence.
  - exists w. split_and!; try done.
    intros c p _ ? _ Hp. congruence.
Qed.

End Hydration.

(** ** Snapshots *)

Lemma toDate_mono (a b : Timestamp) :
  ts_le a b -> date_le (toDate a) (toDate b) = true.
Proof.
  unfold ts_le, toDate, date_le. intros H.
  apply Z.leb_le, Z.quot_le_mono; lia.
Qed.

Lemma toDate_fromMillis (ms : Z) : toDate (fromMillis ms) = Some ms.
Proof.
  unfold toDate, fromMillis, ts_nanos; simpl. f_equal.
  replace (ms / 1000 * 1000000000 + ms mod 1000 * 1000000)
    with (ms * 1000000) by (pose proof (Z.div_mod ms 1000); lia).
  apply Z.quot_mul. lia.
Qed.

Lemma decodeDocument_dataOf (i : string) (d : EventDoc) :
  decodeDocument i (dataOf d) = Returns (decodeEvent i d).
Proof. reflexivity. Qed.

(** A document decodes exactly when its three date fields hold
    timestamps. *)
Lemma decodeDocument_Returns (doc : QueryDocumentSnapshot) :
  hasTimestamps doc = true <->
  exists event, decodeDocument (doc_id doc) (doc_data doc) = Returns event.
Proof.
  unfold hasTimestamps, decodeDocument, toDateOf, isTimestamp.
  destruct (d_dateTime (doc_data doc)) as [[]|];
    destruct (d_createdAt (doc_data doc)) as [[]|];
    destruct (d_updatedAt (doc_data doc)) as [[]|]; cbn;
    split; try done; try (by intros [? ?]); eauto.
Qed.

Lemma decodeDocument_Raises (doc : QueryDocumentSnapshot) :
  hasTimestamps doc = false <->
  exists message, decodeDocument (doc_id doc) (doc_data doc) = Raises message.
Proof.
  destruct (hasTimestamps doc) eqn:H.
  - apply decodeDocument_Returns in H as [e He]. rewrite He.
    split; [done|]. by intros [? ?].
  - split; [intros _|done].
    destruct (decodeDocument (doc_id doc) (doc_data doc)) as [e|m] eqn:He; [|eauto].
    assert (hasTimestamps doc = true) by (apply decodeDocument_Returns; eauto).
    congruence.
Qed.

(** The date of a decoded event is the date of the body's timestamp. *)
Lemma decodeDocument_dateTime (doc : QueryDocumentSnapshot) (event : Event) :
  decodeDocument (doc_id doc) (doc_data doc) = Returns event ->
  exists t, d_dateTime (doc_data doc) = Some (VTimestamp t) /\ dateTime event = toDate t.
Proof.
  unfold decodeDocument, toDateOf.
  destruct (d_dateTime (doc_data doc)) as [[]|];
    destruct (d_createdAt (doc_data doc)) as [[]|];
    destruct (d_updatedAt (doc_data doc)) as [[]|]; cbn; intros [= <-]; eauto.
Qed.

Lemma pushDecoded_raised (snapshot : list QueryDocumentSnapshot) (message : string) :
  fold_left pushDecoded snapshot (Raises message) = Raises message.
Proof. induction snapshot as [|doc snapshot IH]; [done|]. exact IH. Qed.

Lemma pushDecoded_from (snapshot : list QueryDocumentSnapshot) (acc : list Event) :
  fold_left pushDecoded snapshot (Returns acc)
  = match decodeSnapshot snapshot with
    | Returns decoded => Returns (acc ++ decoded)
    | Raises message => Raises message
    end.
Proof.
  unfold decodeSnapshot. revert acc.
  induction snapshot as [|doc snapshot IH]; intros acc; cbn [fold_left].
  - by rewrite app_nil_r.
  - unfold pushDecoded at 2 4. cbn [mbind Evaluated_bind].
    destruct (decodeDocument (doc_id doc) (doc_data doc)) as [event|message];
      cbn [mbind Evaluated_bind].
    + rewrite (IH (acc ++ [event])), (IH ([] ++ [event])).
      destruct (fold_left pushDecoded snapshot (Returns [])); [|done].
      by rewrite <- app_assoc.
    + by rewrite !pushDecoded_raised.
Qed.

Lemma decodeSnapshot_cons (doc : QueryDocumentSnapshot)
    (snapshot : list QueryDocumentSnapshot) :
  decodeSnapshot (doc :: snapshot)
  = match decodeDocument (doc_id doc) (doc_data doc) with
    | Returns event =>
        match decodeSnapshot snapshot with
        | Returns rest => Returns (event :: rest)
        | Raises message => Raises message
        end
    | Raises message => Raises message
    end.
Proof.
  unfold decodeSnapshot at 1. cbn [fold_left].
  unfold pushDecoded at 2. cbn [mbind Evaluated_bind].
  destruct (decodeDocument (doc_id doc) (doc_data doc)) as [event|message];
    cbn [mbind Evaluated_bind].
  - by rewrite pushDecoded_from.
  - apply pushDecoded_raised.
Qed.

(** The loop returns a list exactly when that list holds, in order, the
    decoding of each document. *)
Lemma decodeSnapshot_Returns (snapshot : list QueryDocumentSnapshot)
    (decoded : list Event) :
  decodeSnapshot snapshot = Returns decoded <->
  Forall2 (fun doc event => decodeDocument (doc_id doc) (doc_data doc) = Returns event)
    snapshot decoded.
Proof.
  revert decoded. induction snapshot as [|doc snapshot IH]; intros decoded.
  - split; [intros [= <-]; constructor|]. by inversion 1.
  - rewrite decodeSnapshot_cons. split.
    + destruct (decodeDocument (doc_id doc) (doc_data doc)) as [event|] eqn:He; [|done].
      destruct (decodeSnapshot snapshot) as [rest|]; [|done].
      intros [= <-]. constructor; [done|]. by apply IH.
    + inversion 1 as [|? event ? rest He Hrest]; subst. rewrite He.
      apply IH in Hrest. by rewrite Hrest.
Qed.

(** It returns on the snapshots in which every document has its three
    timestamps, and raises an error on the others. *)
Lemma decodeSnapshot_decodable (snapshot : list QueryDocumentSnapshot) :
  decodable snapshot = true -> exists decoded, decodeSnapshot snapshot = Returns decoded.
Proof.
  unfold decodable. induction snapshot as [|doc snapshot IH]; cbn [forallb].
  - by eexists.
  - intros H. apply andb_true_iff in H as [Hdoc Hrest].
    apply decodeDocument_Returns in Hdoc as [event He].
    destruct (IH Hrest) as [rest Hr].
    exists (event :: rest). by rewrite decodeSnapshot_cons, He, Hr.
Qed.

Lemma decodeSnapshot_not_decodable (snapshot : list QueryDocumentSnapshot) :
  decodable snapshot = false -> exists message, decodeSnapshot snapshot = Raises message.
Proof.
  unfold decodable. induction snapshot as [|doc snapshot IH]; cbn [forallb]; [done|].
  intros H. rewrite decodeSnapshot_cons.
  destruct (hasTimestamps doc) eqn:Hdoc.
  - apply decodeDocument_Returns in Hdoc as [event ->].
    destruct (IH H) as [message ->]. eauto.
  - apply decodeDocument_Raises in Hdoc as [message ->]. eauto.
Qed.

Lemma decodable_Forall (snapshot : list QueryDocumentSnapshot) :
  decodable snapshot = true <-> Forall (fun doc => hasTimestamps doc = true) snapshot.
Proof.
  unfold decodable. rewrite forallb_forall, Forall_forall.
  split; intros H x Hx; apply H; by apply list_elem_of_In.
Qed.

(** The decoded list keeps the order of the snapshot: a snapshot in the
    query's order gives a list in ascending [dateTime] order. *)
Lemma decodeSnapshot_sorted (snapshot : list QueryDocumentSnapshot)
    (decoded : list Event) :
  decodeSnapshot snapshot = Returns decoded ->
  queryOrdered snapshot -> sortedByDateTime decoded.
Proof.
  rewrite decodeSnapshot_Returns. unfold queryOrdered, sortedByDateTime.
  induction 1 as [|doc event snapshot decoded He Hrest IH]; [constructor|].
  intros Hsorted. apply StronglySorted_inv in Hsorted as [Hs Hall].
  constructor; [by apply IH|].
  clear IH Hs. induction Hrest as [|doc' event' ? ? He' ? IH']; [constructor|].
  apply Forall_cons in Hall as [Hle Hall]. constructor; [|by apply IH'].
  apply decodeDocument_dateTime in He as (t & Ht & Hd).
  apply decodeDocument_dateTime in He' as (t' & Ht' & Hd').
  unfold doc_le in Hle. rewrite Ht, Ht' in Hle.
  unfold dateTime_le. rewrite Hd, Hd'. by apply toDate_mono.
Qed.

#[global] Instance stored_le_transitive : Transitive stored_le.
Proof. intros a b c. unfold stored_le, ts_le. lia. Qed.

#[global] Instance stored_le_total : Total stored_le.
Proof. intros a b. unfold stored_le, ts_le. lia. Qed.

(** The result of the query on any collection is in the query's order,
    and decodes to the events of the collection. *)
Lemma queryEvents_ordered (b : gmap string EventDoc) : queryOrdered (queryEvents b).
Proof.
  unfold queryOrdered, queryEvents.
  apply (StronglySorted_fmap _ stored_le); [by intros x y|].
  apply StronglySorted_merge_sort; apply _.
Qed.

Lemma decodeSnapshot_queryEvents (b : gmap string EventDoc) :
  decodeSnapshot (queryEvents b) = Returns (eventsOf b).
Proof.
  apply decodeSnapshot_Returns. unfold queryEvents, eventsOf.
  apply Forall2_fmap, Forall_Forall2_diag, Forall_forall. by intros p _.
Qed.

Lemma eventsOf_sorted (b : gmap string EventDoc) : sortedByDateTime (eventsOf b).
Proof.
  apply (decodeSnapshot_sorted (queryEvents b));
    [apply decodeSnapshot_queryEvents|apply queryEvents_ordered].
Qed.

Section Snapshots.
Variable JSON_stringify : list Event -> string.

(** The handler on a snapshot the loop gets through, and on one that
    stops it. *)
Lemma onSnapshotNext_decoded (setItemFailure : option string)
    (snapshot : list QueryDocumentSnapshot) (decoded : list Event) (w : World) :
  decodeSnapshot snapshot = Returns decoded ->
  onSnapshotNext JSON_stringify setItemFailure snapshot w =
    (Normal tt,
     {| events := decoded; loading := false;
        asyncStorage :=
          match setItemFailure with
          | None => <["events" := JSON_stringify decoded]> (asyncStorage w)
          | Some _ => asyncStorage w
          end;
        requests := requests w |}).
Proof.
  intros Hdec. unfold onSnapshotNext, mbind, Prog_bind, eval. rewrite Hdec.
  by destruct setItemFailure.
Qed.

Lemma onSnapshotNext_raised (setItemFailure : option string)
    (snapshot : list QueryDocumentSnapshot) (message : string) (w : World) :
  decodeSnapshot snapshot = Raises message ->
  onSnapshotNext JSON_stringify setItemFailure snapshot w = (Throw message, w).
Proof.
  intros Hdec. unfold onSnapshotNext, mbind, Prog_bind, eval. by rewrite Hdec.
Qed.

(** C4, as the code has it. When the subscription delivers a snapshot in
    which every document holds timestamps in [dateTime], [createdAt] and
    [updatedAt], the handler completes normally; the in-memory list is
    then the list of the decoded documents of that snapshot, in the
    order delivered, whatever the list was before. The handler does not
    sort: the list is in ascending [dateTime] order because the snapshot
    of the query ordered by [dateTime] is. The same list is handed to
    the cache: the entry [events] holds its serialisation in place of
    what it held when the device storage accepts the write, and keeps
    what it held when the storage refuses. *)
Theorem snapshot_replaces_list (w : World) (snapshot : list QueryDocumentSnapshot)
    (setItemFailure : option string) :
  Forall (fun doc => hasTimestamps doc = true) snapshot ->
  exists w',
    onSnapshotNext JSON_stringify setItemFailure snapshot w = (Normal tt, w') /\
    Forall2 (fun doc event => decodeDocument (doc_id doc) (doc_data doc) = Returns event)
      snapshot (events w') /\
    (queryOrdered snapshot -> sortedByDateTime (events w')) /\
    asyncStorage w' =
      match setItemFailure with
      | None => <["events" := JSON_stringify (events w')]> (asyncStorage w)
      | Some _ => asyncStorage w
      end /\
    loading w' = false /\ requests w' = requests w.
Proof.
  intros Hall. apply decodable_Forall, decodeSnapshot_decodable in Hall as [decoded Hdec].
  eexists. split; [by apply onSnapshotNext_decoded|]. cbn.
  split_and!; try done.
  - by apply decodeSnapshot_Returns.
  - by apply decodeSnapshot_sorted.
Qed.

End Snapshots.

(** C4, as stated, fails on a snapshot with a document that lacks a
    timestamp, here [updatedAt]: the handler throws while decoding it,
    and the client keeps the list, the loading flag and the cache entry
    it had. It fails too, in its last part, when the device storage
    refuses the write: the list is replaced and the cache entry stays. *)
Lemma snapshot_with_malformed_document_changes_nothing :
  ~ (forall (setItemFailure : option string) (w : World)
            (snapshot : list QueryDocumentSnapshot),
       let w' := snd (onSnapshotNext sampleStringify setItemFailure snapshot w) in
       Forall2 (fun doc event =>
                  decodeDocument (doc_id doc) (doc_data doc) = Returns event)
         snapshot (events w') /\
       sortedByDateTime (events w') /\
       asyncStorage w' !! "events" = Some (sampleStringify (events w'))) /\
  onSnapshotNext sampleStringify None malformedSnapshot staleWorld
    = (Throw "TypeError: data.updatedAt is undefined", staleWorld) /\
  (let w' := snd (onSnapshotNext sampleStringify (Some "QuotaExceededError")
                    sampleSnapshot staleWorld) in
   id <$> events w' = ["E1"; "E2"] /\ asyncStorage w' !! "events" = Some "stale").
Proof.
  assert (Hrun : onSnapshotNext sampleStringify None malformedSnapshot staleWorld
                 = (Throw "TypeError: data.updatedAt is undefined", staleWorld))
    by (by apply onSnapshotNext_raised).
  split; [|split; [exact Hrun|split; by vm_compute]].
  intros H. destruct (H None staleWorld malformedSnapshot) as (Hlist & _ & _).
  rewrite Hrun in Hlist. apply Forall2_length in Hlist. discriminate Hlist.
Qed.

(** The handler keeps the order it is given: two documents handed over
    later one first come out later one first. *)
Example handler_does_not_sort :
  (fun e => (id e, dateTime e)) <$>
    events (snd (onSnapshotNext sampleStringify None
                   [{| doc_id := "late";
                       doc_data :=
                         bodyWith
                           (Some (VTimestamp {| seconds := 1764698400; nanoseconds := 0 |}))
                           (Some (VTimestamp {| seconds := 1735725600; nanoseconds := 0 |}))
                           (Some (VTimestamp {| seconds := 1735725600; nanoseconds := 0 |}))
                           (mockDoc 0 []) |};
                    {| doc_id := "early"; doc_data := dataOf (mockDoc 0 []) |}]
                   (initialWorld ∅)))
  = [("late", Some 1764698400000); ("early", Some 1764612000000)].
Proof. by vm_compute. Qed.

(** ** The decoder *)

Lemma fieldToDate_Some (data : DocumentData) (field : string) (d : Date) :
  fieldToDate data field = Some d <->
  exists t, data !! field = Some (VTimestamp t) /\ d = toDate t.
Proof.
  unfold fieldToDate. split.
  - destruct (data !! field) as [[]|]; intros ?; simplify_eq. eauto.
  - intros (t & -> & ->). done.
Qed.

(** The decoder succeeds exactly on the bodies whose three date fields
    hold timestamps. *)
Lemma decodeObject_defined (docId : string) (data : DocumentData) :
  is_Some (decodeObject docId data) <->
  exists t1 t2 t3,
    data !! "dateTime" = Some (VTimestamp t1) /\
    data !! "createdAt" = Some (VTimestamp t2) /\
    data !! "updatedAt" = Some (VTimestamp t3).
Proof.
  unfold decodeObject, fieldToDate. split.
  - intros [o Ho].
    destruct (data !! "dateTime") as [[]|]; simplify_eq/=.
    destruct (data !! "createdAt") as [[]|]; simplify_eq/=.
    destruct (data !! "updatedAt") as [[]|]; simplify_eq/=.
    by eexists _, _, _.
  - intros (t1 & t2 & t3 & -> & -> & ->). simpl. eauto.
Qed.

(** Every field but the three dates and [id] is copied as it is. *)
Lemma decodeObject_copies (docId : string) (data o : DocumentData) (name : string) :
  decodeObject docId data = Some o ->
  name <> "id" -> name <> "dateTime" -> name <> "createdAt" -> name <> "updatedAt" ->
  o !! name = data !! name.
Proof.
  unfold decodeObject. intros Ho ? ? ? ?.
  destruct (fieldToDate data "dateTime"); simplify_eq/=.
  destruct (fieldToDate data "createdAt"); simplify_eq/=.
  destruct (fieldToDate data "updatedAt"); simplify_eq/=.
  unfold setProp, spread.
  rewrite !lookup_insert_ne by done. rewrite lookup_union.
  rewrite lookup_insert_ne by done. rewrite lookup_empty.
  by destruct (data !! name).
Qed.

(** The three dates are the timestamps of the body, converted. *)
Lemma decodeObject_dates (docId : string) (data o : DocumentData) :
  decodeObject docId data = Some o ->
  exists t1 t2 t3,
    data !! "dateTime" = Some (VTimestamp t1) /\
    data !! "createdAt" = Some (VTimestamp t2) /\
    data !! "updatedAt" = Some (VTimestamp t3) /\
    o !! "dateTime" = Some (VDate (toDate t1)) /\
    o !! "createdAt" = Some (VDate (toDate t2)) /\
    o !! "updatedAt" = Some (VDate (toDate t3)).
Proof.
  unfold decodeObject. intros Ho.
  destruct (fieldToDate data "dateTime") as [d1|] eqn:H1; simplify_eq/=.
  destruct (fieldToDate data "createdAt") as [d2|] eqn:H2; simplify_eq/=.
  destruct (fieldToDate data "updatedAt") as [d3|] eqn:H3; simplify_eq/=.
  apply fieldToDate_Some in H1 as (t1 & ? & ->).
  apply fieldToDate_Some in H2 as (t2 & ? & ->).
  apply fieldToDate_Some in H3 as (t3 & ? & ->).
  exists t1, t2, t3. unfold setProp. split_and!; try done.
  - rewrite !lookup_insert_ne by done. apply lookup_insert_eq.
  - rewrite !lookup_insert_ne by done. apply lookup_insert_eq.
  - apply lookup_insert_eq.
Qed.

(** The [id] of the decoded object is the [id] field of the body when the
    body has one, and the document identifier only when it has none: the
    spread of [data] comes after [id: doc.id] in the literal. *)
Lemma decodeObject_id (docId : string) (data o : DocumentData) :
  decodeObject docId data = Some o ->
  o !! "id" = Some (default (VStr docId) (data !! "id")).
Proof.
  unfold decodeObject. intros Ho.
  destruct (fieldToDate data "dateTime"); simplify_eq/=.
  destruct (fieldToDate data "createdAt"); simplify_eq/=.
  destruct (fieldToDate data "updatedAt"); simplify_eq/=.
  unfold setProp, spread.
  rewrite !lookup_insert_ne by done. rewrite lookup_union.
  rewrite lookup_insert_eq. by destruct (data !! "id").
Qed.

Lemma commonProps_no_id ttl ty dur loc diff img descr sdescr hid hname cnt lst :
  commonProps ttl ty dur loc diff img descr sdescr hid hname cnt lst !! "id" = None.
Proof.
  unfold commonProps, optProp, setProp. destruct img; simpl;
    rewrite ?lookup_insert_ne by done; apply lookup_empty.
Qed.

(** The decoder on a body the application wrote is the object literal
    on that body. *)
Lemma decodeEvent_decodeObject (docId : string) (d : EventDoc) :
  decodeObject docId (docObject d) = Some (eventObject (decodeEvent docId d)).
Proof.
  assert (Hdt : docObject d !! "dateTime" = Some (VTimestamp (d_dateTime d))).
  { unfold docObject, optProp, setProp. destruct (d_id d); simpl;
      rewrite ?lookup_insert_ne by done; apply lookup_insert_eq. }
  assert (Hca : docObject d !! "createdAt" = Some (VTimestamp (d_createdAt d))).
  { unfold docObject, optProp, setProp. destruct (d_id d); simpl;
      rewrite ?lookup_insert_ne by done; apply lookup_insert_eq. }
  assert (Hua : docObject d !! "updatedAt" = Some (VTimestamp (d_updatedAt d))).
  { unfold docObject, optProp, setProp. destruct (d_id d); simpl;
      rewrite ?lookup_insert_ne by done; apply lookup_insert_eq. }
  unfold decodeObject, fieldToDate. rewrite Hdt, Hca, Hua. simpl. f_equal.
  apply map_eq. intros k.
  unfold eventObject, docObject, spread, optProp. simpl.
  set (common := commonProps _ _ _ _ _ _ _ _ _ _ _ _).
  assert (Hid : common !! "id" = None) by apply commonProps_no_id.
  clearbody common. unfold setProp.
  destruct (d_id d) as [i|]; simpl;
    repeat (rewrite lookup_insert || rewrite lookup_union || rewrite lookup_empty
            || rewrite Hid || case_decide || simplify_eq || done);
    by destruct (common !! k).
Qed.

(** The decoder of the handler, on bodies with any content in the date
    fields, is the object literal too: it returns the same object, and
    raises an error where the literal does. *)
Lemma commonProps_no_date ttl ty dur loc diff img descr sdescr hid hname cnt lst
    (name : string) :
  name = "dateTime" \/ name = "createdAt" \/ name = "updatedAt" ->
  commonProps ttl ty dur loc diff img descr sdescr hid hname cnt lst !! name = None.
Proof.
  unfold commonProps, optProp, setProp.
  intros [->|[->| ->]]; destruct img; simpl;
    rewrite ?lookup_insert_ne by done; apply lookup_empty.
Qed.

Lemma bodyObject_dates (data : DocumentBody) :
  bodyObject data !! "dateTime" = d_dateTime data /\
  bodyObject data !! "createdAt" = d_createdAt data /\
  bodyObject data !! "updatedAt" = d_updatedAt data.
Proof.
  unfold bodyObject, optProp, setProp.
  set (common := commonProps _ _ _ _ _ _ _ _ _ _ _ _).
  assert (H1 : common !! "dateTime" = None) by (apply commonProps_no_date; auto).
  assert (H2 : common !! "createdAt" = None) by (apply commonProps_no_date; auto).
  assert (H3 : common !! "updatedAt" = None) by (apply commonProps_no_date; auto).
  clearbody common.
  destruct (d_id data), (d_dateTime data), (d_createdAt data), (d_updatedAt data);
    cbn [fmap option_fmap option_map];
    split_and!;
    rewrite ?lookup_insert_ne by done; rewrite ?lookup_insert_eq; done.
Qed.

Lemma docObject_bodyObject (d : EventDoc) : docObject d = bodyObject (dataOf d).
Proof. reflexivity. Qed.

Lemma decodeDocument_decodeObject (docId : string) (data : DocumentBody) :
  decodeObject docId (bodyObject data)
  = match decodeDocument docId data with
    | Returns event => Some (eventObject event)
    | Raises _ => None
    end.
Proof.
  destruct (bodyObject_dates data) as (H1 & H2 & H3).
  destruct (d_dateTime data) as [v1|] eqn:E1.
  2:{ unfold decodeObject, fieldToDate, decodeDocument, toDateOf.
      by rewrite H1, E1. }
  destruct (d_createdAt data) as [v2|] eqn:E2.
  2:{ unfold decodeObject, fieldToDate, decodeDocument, toDateOf.
      rewrite H1, H2, E1, E2. by destruct v1. }
  destruct (d_updatedAt data) as [v3|] eqn:E3.
  2:{ unfold decodeObject, fieldToDate, decodeDocument, toDateOf.
      rewrite H1, H2, H3, E1, E2, E3. by destruct v1, v2. }
  destruct v1 as [| | | |t1| | |];
    try (unfold decodeObject, fieldToDate, decodeDocument, toDateOf;
         by rewrite H1, E1).
  destruct v2 as [| | | |t2| | |];
    try (unfold decodeObject, fieldToDate, decodeDocument, toDateOf;
         by rewrite H1, H2, E1, E2).
  destruct v3 as [| | | |t3| | |];
    try (unfold decodeObject, fieldToDate, decodeDocument, toDateOf;
         by rewrite H1, H2, H3, E1, E2, E3).
  assert (Hdata : data = dataOf
            {| d_id := d_id data; d_title := d_title data; d_type := d_type data;
               d_dateTime := t1; d_duration := d_duration data;
               d_location := d_location data; d_difficulty := d_difficulty data;
               d_imageURL := d_imageURL data; d_description := d_description data;
               d_shortDescription := d_shortDescription data;
               d_hostId := d_hostId data; d_hostName := d_hostName data;
               d_rsvpCount := d_rsvpCount data; d_rsvpList := d_rsvpList data;
               d_createdAt := t2; d_updatedAt := t3 |}).
  { destruct data. cbn in E1, E2, E3. by subst. }
  rewrite Hdata, <- docObject_bodyObject, decodeDocument_dataOf.
  apply decodeEvent_decodeObject.
Qed.

(** ** Array transforms *)

Lemma includes_uid (u : string) (l : list string) :
  existsb (String.eqb u) l = bool_decide (u ∈ l).
Proof.
  induction l as [|x l IH]; [done|].
  - simpl. rewrite IH. destruct (String.eqb_spec u x) as [->|Hne]; simpl.
    + symmetry. apply bool_decide_eq_true_2. left.
    + apply bool_decide_ext. rewrite elem_of_cons. split; [by right|by intros [?|?]].
Qed.

Lemma arrayUnion_one (x : string) (l : list string) :
  arrayUnion [x] l = if bool_decide (x ∈ l) then l else l ++ [x].
Proof. done. Qed.

Lemma arrayRemove_one (x : string) (l : list string) :
  arrayRemove [x] l = List.filter (fun y => negb (String.eqb y x)) l.
Proof.
  unfold arrayRemove. apply List.filter_ext. intros y. f_equal.
  destruct (String.eqb_spec y x) as [->|Hne].
  - apply bool_decide_eq_true_2. left.
  - apply bool_decide_eq_false_2. by rewrite list_elem_of_singleton.
Qed.

Lemma NoDup_bool_filter {A} (p : A -> bool) (l : list A) :
  NoDup l -> NoDup (List.filter p l).
Proof.
  induction 1 as [|x l Hx Hl IH]; simpl; [constructor|].
  destruct (p x); [|done]. constructor; [|done].
  rewrite elem_of_bool_filter. by intros [? _].
Qed.

Lemma arrayRemove_NoDup (xs l : list string) : NoDup l -> NoDup (arrayRemove xs l).
Proof. apply NoDup_bool_filter. Qed.

Lemma arrayUnion_NoDup (xs l : list string) : NoDup l -> NoDup (arrayUnion xs l).
Proof.
  unfold arrayUnion. revert l. induction xs as [|x xs IH]; intros l Hl; simpl; [done|].
  apply IH. case_bool_decide; [done|].
  apply NoDup_app. split_and!; [done| |apply NoDup_singleton].
  intros y Hy. rewrite list_elem_of_singleton. by intros ->.
Qed.

Lemma arrayRemove_not_in (x : string) (l : list string) :
  x ∉ l -> arrayRemove [x] l = l.
Proof.
  intros Hx. unfold arrayRemove. rewrite <- (filter_all l) at 2.
  apply List.filter_ext_in. intros y Hy. apply list_elem_of_In in Hy.
  apply negb_true_iff, bool_decide_eq_false_2.
  rewrite list_elem_of_singleton. by intros ->.
Qed.

(** Removing a member of a duplicate-free list shortens it by one. *)
Lemma arrayRemove_length (x : string) (l : list string) :
  NoDup l -> x ∈ l -> S (length (arrayRemove [x] l)) = length l.
Proof.
  induction 1 as [|y l Hy Hl IH]; intros Hx.
  - by apply elem_of_nil in Hx.
  - change (arrayRemove [x] (y :: l))
      with (if negb (bool_decide (y ∈ [x])) then y :: arrayRemove [x] l
            else arrayRemove [x] l).
    case_bool_decide as Hyx; simpl.
    + apply list_elem_of_singleton in Hyx as ->.
      by rewrite arrayRemove_not_in.
    + f_equal. apply IH. apply elem_of_cons in Hx as [->|Hx]; [|done].
      destruct Hyx. by apply list_elem_of_singleton.
Qed.

(** ** The write of [toggleRSVP] *)

Lemma applyUpdate_rsvp (op : FieldValue) (n now : Z) (d : EventDoc) :
  applyUpdate [("rsvpList", op); ("rsvpCount", FNumber n); ("updatedAt", FDate now)] d
  = with_updatedAt (fromMillis now)
      (with_rsvpCount n
        (match op with
         | FArrayUnion xs => with_rsvpList (arrayUnion xs (d_rsvpList d)) d
         | FArrayRemove xs => with_rsvpList (arrayRemove xs (d_rsvpList d)) d
         | _ => d
         end)).
Proof. by destruct op. Qed.

(** The update that a toggle by [u] on the in-memory [event] sends, to
    the document that [doc] names. *)
Lemma toggleRSVP_found_at (w : World) (u : User) (eventId : string) (now : Z)
    (settlement : Settlement) (reference : DocumentReference) (event : Event) :
  doc "events" eventId = Returns reference ->
  List.find (fun e => String.eqb (id e) eventId) (events w) = Some event ->
  toggleRSVP (Some u) eventId now settlement w =
    (match settlement with
     | Fulfilled => Normal tt
     | Rejected message => Throw message
     | NeverSettled => Pending
     end,
     {| events := events w; loading := loading w; asyncStorage := asyncStorage w;
        requests := requests w ++
          [ReqUpdateDoc (ref_parent reference) (ref_id reference)
             (toggleUpdate u event now)] |}).
Proof.
  intros Hdoc Hfind.
  unfold toggleRSVP, try_catch, mbind, Prog_bind, eval, getEventsState, toggleUpdate.
  rewrite Hdoc, Hfind, includes_uid.
  unfold updateDoc, send. by destruct (bool_decide _), settlement.
Qed.

Lemma toggleRSVP_found (w : World) (u : User) (eventId : string) (now : Z)
    (settlement : Settlement) (event : Event) :
  documentId eventId = true ->
  List.find (fun e => String.eqb (id e) eventId) (events w) = Some event ->
  toggleRSVP (Some u) eventId now settlement w =
    (match settlement with
     | Fulfilled => Normal tt
     | Rejected message => Throw message
     | NeverSettled => Pending
     end,
     {| events := events w; loading := loading w; asyncStorage := asyncStorage w;
        requests := requests w ++
          [ReqUpdateDoc "events" eventId (toggleUpdate u event now)] |}).
Proof.
  intros Hid Hfind.
  by rewrite (toggleRSVP_found_at _ _ _ _ _ _ _ (doc_documentId _ Hid) Hfind).
Qed.

(** The toggle of an event that the lookup finds under an identifier of
    a document. It sends exactly one [updateDoc] to that document and
    changes nothing else on the client. On the stored document the event
    mirrors, the update, applied in one step, removes the caller's [uid]
    from [rsvpList] (every other entry stays, in order) and sets
    [rsvpCount] one below the event's when the [uid] was in the list, and
    otherwise appends the [uid] and sets [rsvpCount] one above; either
    way [updatedAt] becomes the time of the call. On no stored list does
    the update produce a duplicate entry. The two scenarios: from
    [rsvpCount = 2], [rsvpList = [u1, u2]] a toggle by [u3] gives [3] and
    [[u1, u2, u3]]; from [3] and [[u1, u2, u3]] a toggle by [u2] gives [2]
    and [[u1, u3]]. *)
Lemma toggleRSVP_single_update (w : World) (u : User) (eventId : string)
    (now : Z) (settlement : Settlement) (event : Event) :
  documentId eventId = true ->
  List.find (fun e => String.eqb (id e) eventId) (events w) = Some event ->
  let present := bool_decide (uid u ∈ rsvpList event) in
  let data := toggleUpdate u event now in
  snd (toggleRSVP (Some u) eventId now settlement w) =
    {| events := events w; loading := loading w; asyncStorage := asyncStorage w;
       requests := requests w ++ [ReqUpdateDoc "events" eventId data] |} /\
  data = (if present
          then [("rsvpList", FArrayRemove [uid u]);
                ("rsvpCount", FNumber (rsvpCount event - 1));
                ("updatedAt", FDate now)]
          else [("rsvpList", FArrayUnion [uid u]);
                ("rsvpCount", FNumber (rsvpCount event + 1));
                ("updatedAt", FDate now)]) /\
  (forall d, d_rsvpList d = rsvpList event ->
     applyUpdate data d =
       with_updatedAt (fromMillis now)
         (with_rsvpCount
            (if present then rsvpCount event - 1 else rsvpCount event + 1)
            (with_rsvpList
               (if present
                then List.filter (fun y => negb (String.eqb y (uid u))) (rsvpList event)
                else rsvpList event ++ [uid u])
               d))) /\
  (forall d, toDate (d_updatedAt (applyUpdate data d)) = Some now) /\
  (forall d, NoDup (d_rsvpList d) -> NoDup (d_rsvpList (applyUpdate data d))) /\
  (let s := rsvpRound sampleStringify (sampleToggle "u3" "E1")
              (syncedSystem {["E1" := mockDoc 2 ["u1"; "u2"]]}) in
   (fun e => (rsvpCount e, rsvpList e)) <$> events (client s)
     = [(3, ["u1"; "u2"; "u3"])] /\
   (fun d => (d_rsvpCount d, d_rsvpList d)) <$> backend s !! "E1"
     = Some (3, ["u1"; "u2"; "u3"])) /\
  (let s := rsvpRound sampleStringify (sampleToggle "u2" "E1")
              (syncedSystem {["E1" := mockDoc 3 ["u1"; "u2"; "u3"]]}) in
   (fun e => (rsvpCount e, rsvpList e)) <$> events (client s)
     = [(2, ["u1"; "u3"])] /\
   (fun d => (d_rsvpCount d, d_rsvpList d)) <$> backend s !! "E1"
     = Some (2, ["u1"; "u3"])).
Proof.
  intros Hid Hfind present data. split_and!.
  - by rewrite (toggleRSVP_found _ _ _ _ _ _ Hid Hfind).
  - subst data present. unfold toggleUpdate. by destruct (bool_decide _).
  - intros d Hd. subst data present. unfold toggleUpdate.
    rewrite applyUpdate_rsvp.
    destruct (bool_decide (uid u ∈ rsvpList event)) eqn:Hp; rewrite Hd.
    + by rewrite arrayRemove_one.
    + by rewrite arrayUnion_one, Hp.
  - intros d. subst data. unfold toggleUpdate.
    rewrite applyUpdate_rsvp. simpl. apply toDate_fromMillis.
  - intros d Hd. subst data. unfold toggleUpdate. rewrite applyUpdate_rsvp.
    destruct (bool_decide _).
    + exact (arrayRemove_NoDup [uid u] _ Hd).
    + exact (arrayUnion_NoDup [uid u] _ Hd).
  - by vm_compute.
  - by vm_compute.
Qed.

(** C2, at a list in which two events carry the same [id]. In
    [shadowingSystem] the body of document ["a"] carries the [id] of
    document ["b"], so both cards of the client have the [id] ["b"]; the
    second is the event of document ["b"], which [u1] attends. When [u1]
    presses it, [toggleRSVP] looks the identifier up, finds the first
    card, which [u1] does not attend, and sends an [arrayUnion] with
    [rsvpCount = 1] to document ["b"], not the removal with
    [rsvpCount = 0]: once committed and echoed, [u1] is still
    attending. *)
Theorem toggleRSVP_duplicate_id_takes_first_event :
  (fun e => (id e, rsvpCount e, rsvpList e)) <$> events (client shadowingSystem)
    = [("b", 0, []); ("b", 1, ["u1"])] /\
  sentBy (client shadowingSystem)
    (snd (toggleRSVP (Some (mockUser "u1" RoleUser)) "b" 1764600000000 Fulfilled
            (client shadowingSystem)))
    = [ReqUpdateDoc "events" "b"
         [("rsvpList", FArrayUnion ["u1"]); ("rsvpCount", FNumber 1);
          ("updatedAt", FDate 1764600000000)]] /\
  (fun e => (id e, rsvpCount e, rsvpList e)) <$>
    events (client (rsvpRound sampleStringify (sampleToggle "u1" "b") shadowingSystem))
    = [("b", 0, []); ("b", 1, ["u1"])].
Proof. split_and!; by vm_compute. Qed.

(** The same shadowing can give an event of the list an [id] that names
    no document: on the card of [blankIdSystem], which [u1] attends, a
    press by [u1] throws the error of [doc] and sends nothing. *)
Example toggleRSVP_in_list_id_refused :
  (fun e => (id e, rsvpCount e, rsvpList e)) <$> events (client blankIdSystem)
    = [("", 1, ["u1"])] /\
  toggleRSVP (Some (mockUser "u1" RoleUser)) "" 1764600000000 Fulfilled
    (client blankIdSystem)
  = (Throw ("Invalid document reference. Document references must have an even " +:+
            "number of segments, but events has 1."),
     client blankIdSystem).
Proof. split; [by vm_compute|]. by apply toggleRSVP_refused. Qed.

(** C3, at a body that carries its own [id]. The document identifier is
    ["doc-1"]; the decoded event's [id] is the body's
    ["copied-from-elsewhere"], on the untyped object literal and on the
    typed decoder alike. The other fields are copied and the three dates
    converted. *)
Theorem decoder_keeps_body_id :
  exists o,
    decodeObject "doc-1" (docObject shadowedDoc) = Some o /\
    o !! "id" = Some (VStr "copied-from-elsewhere") /\
    o !! "id" <> Some (VStr "doc-1") /\
    o !! "title" = Some (VStr "Test Yoga Session") /\
    o !! "dateTime" = Some (VDate (Some 1764612000000)) /\
    id (decodeEvent "doc-1" shadowedDoc) = "copied-from-elsewhere".
Proof.
  eexists. split; [apply decodeEvent_decodeObject|].
  split_and!; by vm_compute.
Qed.

(** ** The attendance invariant along toggles *)

Lemma elem_of_eventsOf (b : gmap string EventDoc) (e : Event) :
  e ∈ eventsOf b <-> exists i d, b !! i = Some d /\ e = decodeEvent i d.
Proof.
  unfold eventsOf. rewrite list_elem_of_fmap. split.
  - intros ([i d] & -> & Hin). rewrite merge_sort_Permutation in Hin.
    apply elem_of_map_to_list in Hin. eauto.
  - intros (i & d & Hd & ->). exists (i, d). split; [done|].
    rewrite merge_sort_Permutation. by apply elem_of_map_to_list.
Qed.

Lemma decodeEvent_id (i : string) (d : EventDoc) :
  d_id d = None \/ d_id d = Some i -> id (decodeEvent i d) = i.
Proof. by intros [H|H]; simpl; rewrite H. Qed.

(** The update of a toggle keeps a consistent, duplicate-free document
    consistent and duplicate-free, when computed from an event that
    mirrors the document. *)
Lemma toggle_update_consistent (x : string) (now : Z) (d : EventDoc) :
  docConsistent d -> NoDup (d_rsvpList d) ->
  let present := bool_decide (x ∈ d_rsvpList d) in
  let d' := applyUpdate
              [("rsvpList", if present then FArrayRemove [x] else FArrayUnion [x]);
               ("rsvpCount", FNumber (if present then d_rsvpCount d - 1
                                      else d_rsvpCount d + 1));
               ("updatedAt", FDate now)] d in
  docConsistent d' /\ NoDup (d_rsvpList d').
Proof.
  intros Hc Hnd. cbv zeta. unfold docConsistent in *.
  rewrite applyUpdate_rsvp.
  destruct (bool_decide (x ∈ d_rsvpList d)) eqn:Hx.
  - apply bool_decide_eq_true in Hx. split.
    + change (d_rsvpCount d - 1 = Z.of_nat (length (arrayRemove [x] (d_rsvpList d)))).
      pose proof (arrayRemove_length x _ Hnd Hx). lia.
    + exact (arrayRemove_NoDup [x] _ Hnd).
  - split.
    + change (d_rsvpCount d + 1 = Z.of_nat (length (arrayUnion [x] (d_rsvpList d)))).
      rewrite arrayUnion_one, Hx, length_app. simpl. lia.
    + exact (arrayUnion_NoDup [x] _ Hnd).
Qed.

Section RoundTripProperties.
Variable JSON_stringify : list Event -> string.

Lemma deliver_client (setItemFailure : option string) (s : System) :
  backend (deliver JSON_stringify setItemFailure s) = backend s /\
  events (client (deliver JSON_stringify setItemFailure s)) = eventsOf (backend s) /\
  requests (client (deliver JSON_stringify setItemFailure s)) = requests (client s).
Proof.
  unfold deliver.
  rewrite (onSnapshotNext_decoded _ _ _ _ _ (decodeSnapshot_queryEvents (backend s))).
  by destruct setItemFailure.
Qed.

Lemma deliver_requests (setItemFailure : option string) (s : System) :
  requests (client (deliver JSON_stringify setItemFailure s)) = requests (client s).
Proof. apply deliver_client. Qed.

Lemma synced_eventsOf (s : System) :
  Synced s -> events (client s) = eventsOf (backend s).
Proof.
  intros [Hev _ _]. rewrite decodeSnapshot_queryEvents in Hev. congruence.
Qed.

(** An event of a synced client is the decoding of the document that
    carries its [id]. *)
Lemma synced_find (s : System) (eventId : string) (event : Event) :
  Synced s ->
  List.find (fun e => String.eqb (id e) eventId) (events (client s)) = Some event ->
  exists d, backend s !! eventId = Some d /\ event = decodeEvent eventId d.
Proof.
  intros Hs Hfind. pose proof Hs as [_ Hcons Hids].
  apply List.find_some in Hfind as [Hin Heq].
  apply String.eqb_eq in Heq. apply list_elem_of_In in Hin.
  rewrite (synced_eventsOf _ Hs) in Hin.
  apply elem_of_eventsOf in Hin as (i & d & Hd & ->).
  rewrite (decodeEvent_id _ _ (Hids _ _ Hd)) in Heq. subst eventId.
  eauto.
Qed.

Lemma synced_events_consistent (s : System) (e : Event) :
  Synced s -> e ∈ events (client s) -> rsvpConsistent e /\ NoDup (rsvpList e).
Proof.
  intros Hs Hin. pose proof Hs as [_ Hcons Hids].
  rewrite (synced_eventsOf _ Hs) in Hin.
  apply elem_of_eventsOf in Hin as (i & d & Hd & ->). exact (Hcons _ _ Hd).
Qed.

Lemma synced_events_sorted (s : System) :
  Synced s -> sortedByDateTime (events (client s)).
Proof. intros Hs. rewrite (synced_eventsOf _ Hs). apply eventsOf_sorted. Qed.

Lemma deliver_synced (setItemFailure : option string) (b : gmap string EventDoc)
    (w : World) :
  (forall i d, b !! i = Some d -> docConsistent d /\ NoDup (d_rsvpList d)) ->
  (forall i d, b !! i = Some d -> d_id d = None \/ d_id d = Some i) ->
  Synced (deliver JSON_stringify setItemFailure {| backend := b; client := w |}).
Proof.
  intros Hcons Hids.
  destruct (deliver_client setItemFailure {| backend := b; client := w |})
    as (Hb & He & _).
  split; rewrite ?Hb; [|done..].
  rewrite He. apply decodeSnapshot_queryEvents.
Qed.

Lemma rsvpRound_found (t : Toggle) (s : System) (event : Event) :
  documentId (on_event t) = true ->
  List.find (fun e => String.eqb (id e) (on_event t)) (events (client s)) = Some event ->
  let r := ReqUpdateDoc "events" (on_event t)
             (toggleUpdate (by_user t) event (at_time t)) in
  rsvpRound JSON_stringify t s =
    deliver JSON_stringify (cache_failure t)
      {| backend := match write_settlement t with
                    | Fulfilled => commit (backend s) r
                    | _ => backend s
                    end;
         client := {| events := events (client s); loading := loading (client s);
                      asyncStorage := asyncStorage (client s);
                      requests := requests (client s) ++ [r] |} |}.
Proof.
  intros Hid Hfind r. unfold rsvpRound.
  rewrite (toggleRSVP_found _ _ _ _ _ _ Hid Hfind).
  cbn [snd requests]. rewrite drop_app_length. by destruct (write_settlement t).
Qed.

(** A toggle that throws before the write leaves client and collection
    to the echo alone. *)
Lemma rsvpRound_thrown (t : Toggle) (s : System) (message : string) :
  toggleRSVP (Some (by_user t)) (on_event t) (at_time t) (write_settlement t) (client s)
    = (Throw message, client s) ->
  rsvpRound JSON_stringify t s =
    deliver JSON_stringify (cache_failure t)
      {| backend := backend s; client := client s |}.
Proof.
  intros Hw. unfold rsvpRound. rewrite Hw. cbn [snd]. rewrite drop_all.
  by destruct (write_settlement t).
Qed.

Lemma rsvpRound_not_found (t : Toggle) (s : System) :
  documentId (on_event t) = true ->
  List.find (fun e => String.eqb (id e) (on_event t)) (events (client s)) = None ->
  rsvpRound JSON_stringify t s =
    deliver JSON_stringify (cache_failure t)
      {| backend := backend s; client := client s |}.
Proof.
  intros Hid Hfind. apply (rsvpRound_thrown _ _ "Event not found").
  by apply (toggleRSVP_not_found _ _ _ _ _ _ (doc_documentId _ Hid)).
Qed.

(** One round: the write of the toggle, its commit and the echo. *)
Lemma rsvpRound_synced (t : Toggle) (s : System) :
  documentId (on_event t) = true ->
  write_settlement t <> NeverSettled ->
  Synced s ->
  Synced (rsvpRound JSON_stringify t s) /\
  exists sent,
    requests (client (rsvpRound JSON_stringify t s)) = requests (client s) ++ sent /\
    Forall (fun r => writesBothRsvpFields r = true) sent /\
    (length sent <= 1)%nat.
Proof.
  intros Hid _ Hs. pose proof Hs as [Hev Hcons Hids].
  destruct (List.find (fun e => String.eqb (id e) (on_event t)) (events (client s)))
    as [event|] eqn:Hfind.
  - rewrite (rsvpRound_found _ _ _ Hid Hfind).
    destruct (synced_find _ _ _ Hs Hfind) as (d & Hd & ->).
    split.
    + apply deliver_synced.
      * destruct (write_settlement t); [|done..]. unfold commit.
        rewrite String.eqb_refl, Hd.
        intros i d'. rewrite lookup_insert. case_decide; [|by apply Hcons].
        intros [= <-]. apply toggle_update_consistent; by apply (Hcons _ _ Hd).
      * destruct (write_settlement t); [|done..]. unfold commit.
        rewrite String.eqb_refl, Hd.
        intros i d'. rewrite lookup_insert. case_decide; [|by apply Hids].
        intros [= <-]. subst i. destruct (bool_decide _); simpl; by apply Hids.
    + eexists. split.
      { rewrite deliver_requests. reflexivity. }
      split; [|simpl; lia].
      constructor; [|constructor]. done.
  - rewrite (rsvpRound_not_found _ _ Hid Hfind). split.
    + by apply deliver_synced.
    + exists []. rewrite app_nil_r. split; [|split; [constructor|simpl; lia]].
      by rewrite deliver_requests.
Qed.

(** When every toggle is echoed before the next one is made, the
    invariant holds along the sequence. From a state where the client
    mirrors the collection and every stored event has
    [rsvpCount = |rsvpList|] with no duplicate in [rsvpList]: along any
    sequence of RSVP toggles by signed-in users on identifiers of
    documents, each settled and followed by the echo of the
    subscription, after each toggle every stored event and every
    in-memory event still has [rsvpCount = |rsvpList|] (and no
    duplicate), and every write the toggles sent carries [rsvpList] and
    [rsvpCount] together. *)
Lemma echoed_toggles_keep_attendance (ts : list Toggle) (s : System) :
  Forall (fun t => documentId (on_event t) = true /\
                   write_settlement t <> NeverSettled) ts ->
  Synced s ->
  Forall (fun s' => Synced s' /\ attendanceInvariant s' /\ sentTogether s s')
         (rsvpTrace JSON_stringify ts s).
Proof.
  intros Hts. revert s.
  induction Hts as [|t ts [Hid Hset] Hts IH]; intros s Hs; cbn [rsvpTrace];
    [constructor|].
  destruct (rsvpRound_synced t s Hid Hset Hs) as (Hs' & sent & Hreq & Hsent & _).
  constructor.
  - split_and!; [done| |by exists sent].
    split; [apply Hs'|intros e; by apply synced_events_consistent].
  - eapply Forall_impl; [apply IH, Hs'|]. cbv beta.
    intros s'' (H1 & H2 & sent' & Hreq' & Hsent').
    split_and!; [done..|].
    exists (sent ++ sent'). rewrite Hreq', Hreq, app_assoc.
    split; [done|]. by apply Forall_app.
Qed.

End RoundTripProperties.

(** ** Worked examples *)

Ltac by_evaluation := apply (bool_decide_unpack _); vm_compute; exact I.

Example feed_search_is_case_insensitive :
  id <$> applyFilters asciiLower asciiTrim sampleFeed "yoga"
           {| flt_type := None; flt_difficulty := None; flt_dateRange := None |}
  = ["e1"; "e3"].
Proof. by vm_compute. Qed.

Example feed_blank_search_is_no_filter :
  applyFilters asciiLower asciiTrim sampleFeed "   "
    {| flt_type := None; flt_difficulty := None; flt_dateRange := None |}
  = sampleFeed.
Proof. by vm_compute. Qed.

Example feed_type_and_difficulty :
  id <$> applyFilters asciiLower asciiTrim sampleFeed ""
           {| flt_type := Some Yoga; flt_difficulty := Some Beginner;
              flt_dateRange := None |}
  = ["e1"].
Proof. by vm_compute. Qed.

Example feed_date_range_is_inclusive :
  id <$> applyFilters asciiLower asciiTrim sampleFeed ""
           {| flt_type := None; flt_difficulty := None;
              flt_dateRange := Some {| start := Some 1764698400000;
                                       end_ := Some 1764784800000 |} |}
  = ["e2"; "e3"].
Proof. by vm_compute. Qed.

Example timestamp_before_epoch_rounds_towards_zero :
  toDate {| seconds := -1; nanoseconds := 500000 |} = Some (-999).
Proof. reflexivity. Qed.

(** What the body's [id] taking the place of the document identifier
    leads to: both cards of [shadowingSystem] carry the [id] ["b"]; a
    press by [u2] on the first (document ["a"], no attendee) is computed
    from that event and written to document ["b"], which ends with two
    attendees and [rsvpCount = 1]. *)
Example shadowed_id_misdirects_toggle :
  id <$> events (client shadowingSystem) = ["b"; "b"] /\
  (fun d => (d_rsvpCount d, d_rsvpList d)) <$>
    backend (rsvpRound sampleStringify (sampleToggle "u2" "b") shadowingSystem) !! "b"
  = Some (1, ["u1"; "u2"]).
Proof. split; by vm_compute. Qed.

Lemma sample_collection_synced : Synced sampleSystem.
Proof.
  apply deliver_synced; intros i d Hd;
    apply lookup_singleton_Some in Hd as [_ <-].
  - split; [reflexivity|]. by_evaluation.
  - by left.
Qed.

(** C1, at two users who press on the same snapshot. The stored event
    and both devices' copies of it have [rsvpCount = 2] and
    [rsvpList = [u1, u2]], without duplicates. Each press sends one
    write that carries [rsvpList] and [rsvpCount] together: an
    [arrayUnion] of the caller, which Firestore applies to the stored
    list, and the number [3], computed from the device's copy. After the
    first write the stored event has [3] and [[u1, u2, u3]], so the
    second write too meets an event with [rsvpCount = |rsvpList|]; after
    the second it has four attendees and [rsvpCount = 3], and that is
    what the subscription then delivers to every device. *)
Theorem stale_toggle_breaks_attendance_invariant :
  attendanceInvariant sampleSystem /\
  firstWrite =
    [ReqUpdateDoc "events" "E1"
       [("rsvpList", FArrayUnion ["u3"]); ("rsvpCount", FNumber 3);
        ("updatedAt", FDate 1764600000000)]] /\
  secondWrite =
    [ReqUpdateDoc "events" "E1"
       [("rsvpList", FArrayUnion ["u4"]); ("rsvpCount", FNumber 3);
        ("updatedAt", FDate 1764600001000)]] /\
  Forall (fun r => writesBothRsvpFields r = true) (firstWrite ++ secondWrite) /\
  (fun d => (d_rsvpCount d, d_rsvpList d)) <$> afterFirstWrite !! "E1"
    = Some (3, ["u1"; "u2"; "u3"]) /\
  (fun d => (d_rsvpCount d, d_rsvpList d)) <$> afterBothWrites !! "E1"
    = Some (3, ["u1"; "u2"; "u3"; "u4"]) /\
  (fun e => (rsvpCount e, rsvpList e)) <$> events (client (syncedSystem afterBothWrites))
    = [(3, ["u1"; "u2"; "u3"; "u4"])] /\
  ~ attendanceInvariant (syncedSystem afterBothWrites).
Proof.
  split_and!; try by vm_compute.
  - pose proof sample_collection_synced as Hs. split.
    + apply (synced_consistent _ Hs).
    + intros e. by apply synced_events_consistent.
  - repeat constructor.
  - intros [Hstored _].
    destruct (Hstored "E1" (with_updatedAt (fromMillis 1764600001000)
                              (with_rsvpCount 3
                                 (with_rsvpList ["u1"; "u2"; "u3"; "u4"]
                                    (mockDoc 2 ["u1"; "u2"]))))) as [Hcount _];
      [by vm_compute|].
    by vm_compute in Hcount.
Qed.

Lemma snapshot_replaces_list_witness :
  Forall (fun doc => hasTimestamps doc = true) sampleSnapshot /\
  exists w',
    onSnapshotNext sampleStringify None sampleSnapshot staleWorld = (Normal tt, w') /\
    id <$> events w' = ["E1"; "E2"] /\
    asyncStorage w' !! "events" = Some "E1,E2" /\
    loading w' = false.
Proof.
  assert (Hall : Forall (fun doc => hasTimestamps doc = true) sampleSnapshot)
    by (repeat constructor).
  split; [exact Hall|].
  destruct (snapshot_replaces_list sampleStringify staleWorld sampleSnapshot None Hall)
    as (w' & Hrun & _ & _ & _ & Hloading & _).
  exists w'. split; [exact Hrun|].
  assert (Hw : w' = snd (onSnapshotNext sampleStringify None sampleSnapshot staleWorld))
    by (by rewrite Hrun).
  rewrite Hw. split_and!; by vm_compute.
Defined.

Lemma toggleRSVP_failures_witness :
  (Some (mockUser "u3" RoleUser) = None \/
   (exists refused, doc "events" "E7" = Raises refused) \/
   "E7" ∉ id <$> events (client sampleSystem)) /\
  toggleRSVP (Some (mockUser "u3" RoleUser)) "E7" 1764600000000 Fulfilled
    (client sampleSystem)
  = (Throw "Event not found", client sampleSystem).
Proof.
  assert (H : Some (mockUser "u3" RoleUser) = None \/
              (exists refused, doc "events" "E7" = Raises refused) \/
              "E7" ∉ id <$> events (client sampleSystem)).
  { right. right. by_evaluation. }
  split; [exact H|].
  destruct (toggleRSVP_failures (client sampleSystem) _ "E7" 1764600000000 Fulfilled H)
    as (message & Hrun & _ & _ & Hmsg).
  rewrite Hrun. by rewrite (Hmsg ltac:(done) ltac:(by eexists)).
Defined.

Lemma loadCachedEvents_never_throws_witness :
  (exists cached message,
     asyncStorage corruptCacheWorld !! "events" = Some cached /\
     sampleParse cached = Raises message) /\
  loadCachedEvents sampleParse None corruptCacheWorld = (Normal tt, corruptCacheWorld) /\
  events corruptCacheWorld = [].
Proof.
  assert (H : exists cached message,
            asyncStorage corruptCacheWorld !! "events" = Some cached /\
            sampleParse cached = Raises message).
  { exists "{not json", "Unexpected token". split; reflexivity. }
  split; [exact H|].
  destruct (loadCachedEvents_never_throws sampleParse None corruptCacheWorld)
    as (w' & Hrun & _ & _ & _ & Hsame & _).
  destruct (Hsame (or_intror (or_intror (or_intror H)))) as [-> _].
  split; [exact Hrun|reflexivity].
Defined.

Lemma createEvent_organizer_only_witness :
  role sampleOrganizer = RoleOrganizer /\
  exists doc,
    requests (snd (createEvent (Some sampleOrganizer) sampleEventData
                     1764600000000 1764600000001 "auto-1" Fulfilled (initialWorld ∅)))
      = [ReqAddDoc "events" "auto-1" doc] /\
    new_rsvpCount doc = 0 /\ new_rsvpList doc = [] /\
    new_hostId doc = "host-user-id" /\ new_hostName doc = "Test User".
Proof.
  split; [reflexivity|].
  destruct (createEvent_organizer_only (initialWorld ∅) (Some sampleOrganizer)
              sampleEventData 1764600000000 1764600000001 "auto-1" Fulfilled)
    as [_ H].
  destruct (H sampleOrganizer eq_refl eq_refl) as (doc & H1 & _ & H3 & H4 & H5 & H6 & _).
  exists doc. split_and!; done.
Defined.

(** * Further properties of the provider *)

Section ProviderProperties.
Variable JSON_stringify : list Event -> string.

(** The state the handler leaves, by whether the snapshot decodes. *)
Lemma onSnapshotNext_state (setItemFailure : option string)
    (snapshot : list QueryDocumentSnapshot) (w : World) :
  snd (onSnapshotNext JSON_stringify setItemFailure snapshot w) =
    match decodeSnapshot snapshot with
    | Returns decoded =>
        {| events := decoded; loading := false;
           asyncStorage :=
             match setItemFailure with
             | None => <["events" := JSON_stringify decoded]> (asyncStorage w)
             | Some _ => asyncStorage w
             end;
           requests := requests w |}
    | Raises _ => w
    end.
Proof.
  destruct (decodeSnapshot snapshot) as [decoded|message] eqn:Hdec.
  - by rewrite (onSnapshotNext_decoded _ _ _ _ _ Hdec).
  - by rewrite (onSnapshotNext_raised _ _ _ _ _ Hdec).
Qed.

(** X1. The snapshot handler throws exactly on a snapshot with a
    document that lacks a timestamp in [dateTime], [createdAt] or
    [updatedAt], and then it has changed nothing: the list, the loading
    flag and the cache are as before. On any other snapshot it
    completes normally whatever the device storage answers: the list
    and the loading flag are set either way, and the cache entry is
    replaced when the storage accepts the write and keeps its content
    when it refuses. No write goes to Firestore. *)
Theorem onSnapshotNext_throws_on_malformed_only (setItemFailure : option string)
    (snapshot : list QueryDocumentSnapshot) (w : World) :
  if decodable snapshot then
    exists decoded,
      decodeSnapshot snapshot = Returns decoded /\
      onSnapshotNext JSON_stringify setItemFailure snapshot w =
        (Normal tt,
         {| events := decoded; loading := false;
            asyncStorage :=
              match setItemFailure with
              | None => <["events" := JSON_stringify decoded]> (asyncStorage w)
              | Some _ => asyncStorage w
              end;
            requests := requests w |})
  else
    exists message,
      onSnapshotNext JSON_stringify setItemFailure snapshot w = (Throw message, w).
Proof.
  destruct (decodable snapshot) eqn:Hd.
  - destruct (decodeSnapshot_decodable _ Hd) as [decoded Hdec].
    exists decoded. split; [done|]. by apply onSnapshotNext_decoded.
  - destruct (decodeSnapshot_not_decodable _ Hd) as [message Hdec].
    exists message. by apply onSnapshotNext_raised.
Qed.

(** X2. The last snapshot that decodes wins. After two snapshots in a
    row, the second one cached: when the second decodes, the state is
    what it alone would have left, and nothing of the first survives, in
    memory or in the cache; when it does not, the state is the one the
    first left. *)
Theorem last_snapshot_wins (failure1 : option string)
    (snapshot1 snapshot2 : list QueryDocumentSnapshot) (w : World) :
  snd (onSnapshotNext JSON_stringify None snapshot2
         (snd (onSnapshotNext JSON_stringify failure1 snapshot1 w)))
  = if decodable snapshot2
    then snd (onSnapshotNext JSON_stringify None snapshot2 w)
    else snd (onSnapshotNext JSON_stringify failure1 snapshot1 w).
Proof.
  destruct (decodable snapshot2) eqn:Hd.
  - destruct (decodeSnapshot_decodable _ Hd) as [decoded Hdec].
    rewrite !(onSnapshotNext_state None snapshot2), Hdec.
    rewrite onSnapshotNext_state.
    destruct (decodeSnapshot snapshot1); [|done]. cbn. f_equal.
    destruct failure1; [done|]. apply insert_insert_eq.
  - destruct (decodeSnapshot_not_decodable _ Hd) as [message Hdec].
    by rewrite (onSnapshotNext_state None snapshot2), Hdec.
Qed.

(** X3. A manual refresh is absorbed by the next callback of the
    subscription that gets through: a snapshot that decodes, handled
    after [refreshEvents], leaves the state it would have left without
    the refresh, and an error callback after it clears the loading flag
    and keeps list, cache and writes. A snapshot that does not decode
    leaves the flag raised. *)
Theorem refresh_absorbed_by_subscription (setItemFailure : option string)
    (snapshot : list QueryDocumentSnapshot) (w : World) :
  snd (onSnapshotNext JSON_stringify setItemFailure snapshot (snd (refreshEvents w)))
    = (if decodable snapshot
       then snd (onSnapshotNext JSON_stringify setItemFailure snapshot w)
       else {| events := events w; loading := true;
               asyncStorage := asyncStorage w; requests := requests w |}) /\
  snd (onSnapshotError (snd (refreshEvents w)))
    = {| events := events w; loading := false;
         asyncStorage := asyncStorage w; requests := requests w |}.
Proof.
  split; [|done]. rewrite !onSnapshotNext_state.
  destruct (decodable snapshot) eqn:Hd.
  - by destruct (decodeSnapshot_decodable _ Hd) as [decoded ->].
  - by destruct (decodeSnapshot_not_decodable _ Hd) as [message ->].
Qed.

End ProviderProperties.

(** * Further properties of the RSVP toggle *)

Lemma arrayRemove_app_new (x : string) (l : list string) :
  x ∉ l -> arrayRemove [x] (l ++ [x]) = l.
Proof.
  intros Hx. unfold arrayRemove. rewrite List.filter_app. simpl.
  rewrite (bool_decide_eq_true_2 (x ∈ [x])) by left. simpl.
  rewrite app_nil_r. by apply arrayRemove_not_in.
Qed.

Lemma arrayRemove_gone (x : string) (l : list string) : x ∉ arrayRemove [x] l.
Proof.
  unfold arrayRemove. rewrite elem_of_bool_filter, negb_true_iff, bool_decide_eq_false.
  intros [_ H]. apply H. left.
Qed.

Lemma arrayRemove_Permutation (x : string) (l : list string) :
  NoDup l -> x ∈ l -> arrayRemove [x] l ++ [x] ≡ₚ l.
Proof.
  induction 1 as [|y l Hy Hl IH]; intros Hx.
  - by apply elem_of_nil in Hx.
  - change (arrayRemove [x] (y :: l))
      with (if negb (bool_decide (y ∈ [x])) then y :: arrayRemove [x] l
            else arrayRemove [x] l).
    case_bool_decide as Hyx; simpl.
    + apply list_elem_of_singleton in Hyx as ->.
      rewrite arrayRemove_not_in by done.
      symmetry. apply Permutation_cons_append.
    + f_equiv. apply IH. apply elem_of_cons in Hx as [->|Hx]; [|done].
      destruct Hyx. by apply list_elem_of_singleton.
Qed.

Lemma commit_update (b : gmap string EventDoc) (docId : string) (data : UpdateData)
    (d : EventDoc) :
  b !! docId = Some d ->
  commit b (ReqUpdateDoc "events" docId data) = <[docId := applyUpdate data d]> b.
Proof. intros Hd. simpl. by rewrite Hd. Qed.

Lemma sentBy_toggle (w : World) (u : User) (eventId : string) (now : Z)
    (settlement : Settlement) (event : Event) :
  documentId eventId = true ->
  List.find (fun e => String.eqb (id e) eventId) (events w) = Some event ->
  sentBy w (snd (toggleRSVP (Some u) eventId now settlement w))
  = [ReqUpdateDoc "events" eventId (toggleUpdate u event now)].
Proof.
  intros Hid Hfind. rewrite (toggleRSVP_found _ _ _ _ _ _ Hid Hfind).
  unfold sentBy. simpl. by rewrite drop_app_length.
Qed.

Lemma arrayRemove_idem (xs l : list string) :
  arrayRemove xs (arrayRemove xs l) = arrayRemove xs l.
Proof. apply filter_same_twice. Qed.

Lemma arrayUnion_idem (x : string) (l : list string) :
  arrayUnion [x] (arrayUnion [x] l) = arrayUnion [x] l.
Proof.
  rewrite (arrayUnion_one x l). case_bool_decide as Hin.
  - by rewrite arrayUnion_one, bool_decide_eq_true_2.
  - rewrite arrayUnion_one, bool_decide_eq_true_2; [done|].
    apply elem_of_app. right. left.
Qed.

Lemma with_rsvpList_again (l l' : list string) (n : Z) (t : Timestamp) (d : EventDoc) :
  with_rsvpList l' (with_updatedAt t (with_rsvpCount n (with_rsvpList l d)))
  = with_updatedAt t (with_rsvpCount n (with_rsvpList l' d)).
Proof. reflexivity. Qed.

Lemma with_rsvpCount_again (l : list string) (n n' : Z) (t : Timestamp) (d : EventDoc) :
  with_rsvpCount n' (with_updatedAt t (with_rsvpCount n (with_rsvpList l d)))
  = with_updatedAt t (with_rsvpCount n' (with_rsvpList l d)).
Proof. reflexivity. Qed.

Lemma with_updatedAt_again (l : list string) (n : Z) (t t' : Timestamp) (d : EventDoc) :
  with_updatedAt t' (with_updatedAt t (with_rsvpCount n (with_rsvpList l d)))
  = with_updatedAt t' (with_rsvpCount n (with_rsvpList l d)).
Proof. reflexivity. Qed.

Lemma rsvpList_of_update (l : list string) (n : Z) (t : Timestamp) (d : EventDoc) :
  d_rsvpList (with_updatedAt t (with_rsvpCount n (with_rsvpList l d))) = l.
Proof. reflexivity. Qed.

Lemma rsvpCount_of_update (l : list string) (n : Z) (t : Timestamp) (d : EventDoc) :
  d_rsvpCount (with_updatedAt t (with_rsvpCount n (with_rsvpList l d))) = n.
Proof. reflexivity. Qed.

(** The update of a toggle in the form of the three field changes. *)
Lemma applyUpdate_toggle (u : User) (event : Event) (now : Z) (d : EventDoc) :
  applyUpdate (toggleUpdate u event now) d
  = with_updatedAt (fromMillis now)
      (with_rsvpCount
         (if bool_decide (uid u ∈ rsvpList event)
          then rsvpCount event - 1 else rsvpCount event + 1)
         (with_rsvpList
            (if bool_decide (uid u ∈ rsvpList event)
             then arrayRemove [uid u] (d_rsvpList d)
             else arrayUnion [uid u] (d_rsvpList d))
            d)).
Proof.
  unfold toggleUpdate. rewrite applyUpdate_rsvp.
  by destruct (bool_decide (uid u ∈ rsvpList event)).
Qed.

Lemma applyUpdate_toggle_again (u : User) (event : Event) (now1 now2 : Z) (d : EventDoc) :
  applyUpdate (toggleUpdate u event now2) (applyUpdate (toggleUpdate u event now1) d)
  = with_updatedAt (fromMillis now2) (applyUpdate (toggleUpdate u event now1) d).
Proof.
  rewrite (applyUpdate_toggle u event now1 d).
  rewrite (applyUpdate_toggle u event now2).
  rewrite rsvpList_of_update, with_rsvpList_again, with_rsvpCount_again,
    !with_updatedAt_again.
  destruct (bool_decide (uid u ∈ rsvpList event)).
  - by rewrite arrayRemove_idem.
  - by rewrite arrayUnion_idem.
Qed.

(** X5. A double tap is one toggle. When the same user presses twice
    on an event stored under a document identifier, before the
    subscription has echoed the first write, both calls read the same
    in-memory event and send the same update but for the time: once both
    are committed the stored document is what the first alone would
    have left, with the later [updatedAt]. *)
Theorem double_tap_is_one_toggle (b : gmap string EventDoc) (w : World) (u : User)
    (eventId : string) (now1 now2 : Z) (event : Event) (d : EventDoc) :
  documentId eventId = true ->
  List.find (fun e => String.eqb (id e) eventId) (events w) = Some event ->
  b !! eventId = Some d ->
  let w1 := snd (toggleRSVP (Some u) eventId now1 Fulfilled w) in
  let w2 := snd (toggleRSVP (Some u) eventId now2 Fulfilled w1) in
  sentBy w w2 =
    [ReqUpdateDoc "events" eventId (toggleUpdate u event now1);
     ReqUpdateDoc "events" eventId (toggleUpdate u event now2)] /\
  fold_left commit (sentBy w w2) b =
    <[eventId := with_updatedAt (fromMillis now2)
                   (applyUpdate (toggleUpdate u event now1) d)]> b.
Proof.
  intros Hid Hfind Hd w1 w2. subst w2 w1.
  rewrite (toggleRSVP_found _ _ _ _ _ _ Hid Hfind). cbn [snd].
  match goal with |- context [toggleRSVP _ _ _ _ ?w1] =>
    rewrite (toggleRSVP_found w1 u eventId now2 Fulfilled event Hid Hfind) end.
  unfold sentBy. cbn [snd requests]. rewrite <- app_assoc, drop_app_length.
  split; [done|]. cbn [fold_left app].
  rewrite (commit_update _ _ _ _ Hd).
  rewrite (commit_update _ _ _ (applyUpdate (toggleUpdate u event now1) d))
    by apply lookup_insert_eq.
  rewrite insert_insert_eq. f_equal. apply applyUpdate_toggle_again.
Qed.

(** X6. Two users, one stale snapshot. When two different users who are
    not attending both toggle from lists that mirror the same stored
    document (stored under a document identifier), and both writes are
    committed, the document gains both users but its [rsvpCount] only
    one: the counter ends one below the length of the list. *)
Theorem stale_toggles_by_two_users_undercount (b : gmap string EventDoc)
    (w1 w2 : World) (u1 u2 : User) (eventId : string) (now1 now2 : Z)
    (d : EventDoc) :
  documentId eventId = true ->
  b !! eventId = Some d ->
  docConsistent d ->
  List.find (fun e => String.eqb (id e) eventId) (events w1)
    = Some (decodeEvent eventId d) ->
  List.find (fun e => String.eqb (id e) eventId) (events w2)
    = Some (decodeEvent eventId d) ->
  uid u1 ∉ d_rsvpList d -> uid u2 ∉ d_rsvpList d -> uid u1 <> uid u2 ->
  let sent1 := sentBy w1 (snd (toggleRSVP (Some u1) eventId now1 Fulfilled w1)) in
  let sent2 := sentBy w2 (snd (toggleRSVP (Some u2) eventId now2 Fulfilled w2)) in
  exists d',
    fold_left commit (sent1 ++ sent2) b !! eventId = Some d' /\
    d_rsvpList d' = d_rsvpList d ++ [uid u1; uid u2] /\
    d_rsvpCount d' = d_rsvpCount d + 1 /\
    d_rsvpCount d' = Z.of_nat (length (d_rsvpList d')) - 1.
Proof.
  intros Hid Hd Hc Hf1 Hf2 Hu1 Hu2 Hne sent1 sent2. subst sent1 sent2.
  rewrite (sentBy_toggle _ _ _ _ _ _ Hid Hf1), (sentBy_toggle _ _ _ _ _ _ Hid Hf2).
  cbn [fold_left app].
  rewrite (commit_update _ _ _ _ Hd).
  rewrite (commit_update _ _ _
             (applyUpdate (toggleUpdate u1 (decodeEvent eventId d) now1) d))
    by apply lookup_insert_eq.
  rewrite insert_insert_eq, lookup_insert_eq. eexists. split; [reflexivity|].
  unfold toggleUpdate. rewrite !applyUpdate_rsvp.
  cbn [rsvpList rsvpCount decodeEvent].
  rewrite (bool_decide_eq_false_2 _ Hu1), (bool_decide_eq_false_2 _ Hu2).
  assert (Hl : d_rsvpList
                 (with_updatedAt (fromMillis now2)
                    (with_rsvpCount (d_rsvpCount d + 1)
                       (with_rsvpList
                          (arrayUnion [uid u2]
                             (d_rsvpList
                                (with_updatedAt (fromMillis now1)
                                   (with_rsvpCount (d_rsvpCount d + 1)
                                      (with_rsvpList
                                         (arrayUnion [uid u1] (d_rsvpList d)) d)))))
                          (with_updatedAt (fromMillis now1)
                             (with_rsvpCount (d_rsvpCount d + 1)
                                (with_rsvpList
                                   (arrayUnion [uid u1] (d_rsvpList d)) d))))))
               = d_rsvpList d ++ [uid u1; uid u2]).
  { cbn -[arrayUnion]. rewrite (arrayUnion_one (uid u1)).
    rewrite (bool_decide_eq_false_2 _ Hu1), arrayUnion_one.
    rewrite bool_decide_eq_false_2; [by rewrite <- app_assoc|].
    rewrite elem_of_app, list_elem_of_singleton. intros [?|?]; congruence. }
  split; [exact Hl|]. split; [reflexivity|].
  rewrite Hl, length_app. cbn -[Z.of_nat]. unfold docConsistent in Hc. lia.
Qed.

Section ToggleSequences.
Variable JSON_stringify : list Event -> string.

(** On a synced client the event found under an identifier is the
    decoding of the document stored under it. *)
Lemma synced_lookup_find (s : System) (eventId : string) (d : EventDoc) :
  Synced s -> backend s !! eventId = Some d ->
  List.find (fun e => String.eqb (id e) eventId) (events (client s))
    = Some (decodeEvent eventId d).
Proof.
  intros Hs Hd.
  destruct (List.find (fun e => String.eqb (id e) eventId) (events (client s)))
    as [e|] eqn:Hfind.
  - destruct (synced_find _ _ _ Hs Hfind) as (d' & Hd' & ->). congruence.
  - exfalso. pose proof Hs as [_ _ Hids].
    assert (Hin : decodeEvent eventId d ∈ events (client s)).
    { rewrite (synced_eventsOf _ Hs). apply elem_of_eventsOf. eauto. }
    apply list_elem_of_In in Hin.
    pose proof (List.find_none _ _ Hfind _ Hin) as Hneq. cbv beta in Hneq.
    rewrite (decodeEvent_id _ _ (Hids _ _ Hd)), String.eqb_refl in Hneq. done.
Qed.

Lemma rsvpRound_backend (t : Toggle) (s : System) (d : EventDoc) :
  documentId (on_event t) = true ->
  Synced s -> backend s !! on_event t = Some d -> write_settlement t = Fulfilled ->
  backend (rsvpRound JSON_stringify t s)
  = <[on_event t := applyUpdate (toggleUpdate (by_user t)
                                   (decodeEvent (on_event t) d) (at_time t)) d]>
      (backend s).
Proof.
  intros Hid Hs Hd Hw.
  rewrite (rsvpRound_found _ _ _ _ Hid (synced_lookup_find _ _ _ Hs Hd)).
  rewrite Hw. destruct (deliver_client JSON_stringify (cache_failure t)
    {| backend := commit (backend s)
         (ReqUpdateDoc "events" (on_event t)
            (toggleUpdate (by_user t) (decodeEvent (on_event t) d) (at_time t)));
       client := {| events := events (client s); loading := loading (client s);
                    asyncStorage := asyncStorage (client s);
                    requests := requests (client s) ++
                      [ReqUpdateDoc "events" (on_event t)
                         (toggleUpdate (by_user t) (decodeEvent (on_event t) d)
                            (at_time t))] |} |}) as (-> & _ & _).
  cbn [backend]. by apply commit_update.
Qed.

(** X7. Toggling twice gives the attendance back. On a synced client,
    two accepted toggles of the same event (stored under a document
    identifier) by the same user, each echoed by the subscription, leave
    [rsvpCount] as it was and the same attendees in [rsvpList]: the list
    itself when the user was not attending (joined, then left), the list
    with the user moved to the end when the user was (left, then joined
    again). No other document changes. *)
Theorem toggle_twice_restores_attendance (s : System) (t1 t2 : Toggle) (d : EventDoc) :
  documentId (on_event t1) = true ->
  Synced s ->
  backend s !! on_event t1 = Some d ->
  on_event t2 = on_event t1 ->
  uid (by_user t2) = uid (by_user t1) ->
  write_settlement t1 = Fulfilled -> write_settlement t2 = Fulfilled ->
  let s2 := rsvpRound JSON_stringify t2 (rsvpRound JSON_stringify t1 s) in
  exists d2,
    backend s2 !! on_event t1 = Some d2 /\
    d_rsvpCount d2 = d_rsvpCount d /\
    d_rsvpList d2 ≡ₚ d_rsvpList d /\
    (uid (by_user t1) ∉ d_rsvpList d -> d_rsvpList d2 = d_rsvpList d) /\
    (uid (by_user t1) ∈ d_rsvpList d ->
       d_rsvpList d2 = arrayRemove [uid (by_user t1)] (d_rsvpList d) ++ [uid (by_user t1)]) /\
    (forall i, i <> on_event t1 -> backend s2 !! i = backend s !! i).
Proof.
  intros Hid Hs Hd He Hu Hw1 Hw2 s2. subst s2.
  assert (Hid2 : documentId (on_event t2) = true) by (by rewrite He).
  pose proof (rsvpRound_backend t1 s d Hid Hs Hd Hw1) as Hb1.
  destruct (rsvpRound_synced JSON_stringify t1 s Hid ltac:(by rewrite Hw1) Hs)
    as [Hs1 _].
  assert (Hd1 : backend (rsvpRound JSON_stringify t1 s) !! on_event t2
                = Some (applyUpdate (toggleUpdate (by_user t1)
                                       (decodeEvent (on_event t1) d) (at_time t1)) d)).
  { rewrite He, Hb1. apply lookup_insert_eq. }
  rewrite (rsvpRound_backend t2 _ _ Hid2 Hs1 Hd1 Hw2).
  rewrite Hb1, He, insert_insert_eq, lookup_insert_eq.
  destruct (synced_consistent _ Hs _ _ Hd) as [_ Hnd].
  eexists. split; [reflexivity|].
  rewrite (applyUpdate_toggle (by_user t2)), (applyUpdate_toggle (by_user t1)).
  cbn [rsvpList rsvpCount decodeEvent].
  rewrite !rsvpCount_of_update, !rsvpList_of_update, Hu.
  destruct (bool_decide (uid (by_user t1) ∈ d_rsvpList d)) eqn:Hin.
  - apply bool_decide_eq_true in Hin.
    rewrite (bool_decide_eq_false_2 (uid (by_user t1) ∈ arrayRemove _ _))
      by apply arrayRemove_gone.
    rewrite arrayUnion_one, bool_decide_eq_false_2 by apply arrayRemove_gone.
    split_and!; [lia|by apply arrayRemove_Permutation|done|done|].
    intros i Hi. by rewrite lookup_insert_ne.
  - apply bool_decide_eq_false in Hin.
    rewrite arrayUnion_one, (bool_decide_eq_false_2 _ Hin).
    rewrite (bool_decide_eq_true_2 (uid (by_user t1) ∈ d_rsvpList d ++ _))
      by (apply elem_of_app; right; left).
    rewrite arrayRemove_app_new by done.
    split_and!; [lia|done|done|done|].
    intros i Hi. by rewrite lookup_insert_ne.
Qed.

End ToggleSequences.

(** * Further properties of the feed filter *)

Lemma bool_filter_sublist {A} (p : A -> bool) (l : list A) :
  List.filter p l `sublist_of` l.
Proof.
  induction l as [|x l IH]; simpl; [constructor|].
  destruct (p x); by constructor.
Qed.

Lemma bool_filter_sublist_impl {A} (p q : A -> bool) (l : list A) :
  (forall x, p x = true -> q x = true) ->
  List.filter p l `sublist_of` List.filter q l.
Proof.
  intros Hpq. induction l as [|x l IH]; simpl; [constructor|].
  destruct (p x) eqn:Hp.
  - rewrite (Hpq _ Hp). by constructor.
  - destruct (q x); [by constructor|done].
Qed.

Lemma date_between (d a b : Date) :
  date_ge d a && date_le d b = true <->
  exists t lo hi, d = Some t /\ a = Some lo /\ b = Some hi /\ lo <= t <= hi.
Proof.
  unfold date_ge, date_le. rewrite andb_true_iff. split.
  - destruct d as [t|], a as [lo|], b as [hi|]; intros [H1 H2]; try done.
    apply Z.leb_le in H1, H2. by exists t, lo, hi.
  - intros (t & lo & hi & -> & -> & -> & H1 & H2). split; by apply Z.leb_le.
Qed.

Section EventsFeedFurther.
Variable toLowerCase : string -> string.
Variable trim : string -> string.

(** X8. The feed shows exactly the events of the list that pass every
    filter that is set, in the order of the list. The search applies
    only when the trimmed text is not empty; a set type and a set
    difficulty must be equal to the event's; a set date range keeps the
    events whose [dateTime] is a valid date within the two bounds, both
    included (with an invalid bound it keeps none). *)
Theorem feed_shows_exactly_passing_events (l : list Event) (q : string) (F : Filters) :
  applyFilters toLowerCase trim l q F `sublist_of` l /\
  forall e,
    e ∈ applyFilters toLowerCase trim l q F <->
    e ∈ l /\
    (truthy (trim q) = true -> searchMatch toLowerCase q e = true) /\
    (forall t, flt_type F = Some t -> type e = t) /\
    (forall d, flt_difficulty F = Some d -> difficulty e = d) /\
    (forall r, flt_dateRange F = Some r ->
       exists t lo hi,
         dateTime e = Some t /\ start r = Some lo /\ end_ r = Some hi /\ lo <= t <= hi).
Proof.
  rewrite applyFilters_passes. split; [apply bool_filter_sublist|].
  intros e. rewrite elem_of_bool_filter. unfold passes.
  rewrite !andb_true_iff. unfold typeMatch, difficultyMatch, dateRangeMatch.
  split.
  - intros (He & ((Hs & Ht) & Hd) & Hr). split_and!; [done|..].
    + intros Hq. by rewrite Hq in Hs.
    + intros t Ht'. rewrite Ht' in Ht. by apply bool_decide_eq_true in Ht.
    + intros d Hd'. rewrite Hd' in Hd. by apply bool_decide_eq_true in Hd.
    + intros r Hr'. rewrite Hr' in Hr. by apply date_between.
  - intros (He & Hs & Ht & Hd & Hr). split_and!; [done|..].
    + destruct (truthy (trim q)); [by apply Hs|done].
    + destruct (flt_type F); [|done]. apply bool_decide_eq_true. by apply Ht.
    + destruct (flt_difficulty F); [|done]. apply bool_decide_eq_true. by apply Hd.
    + destruct (flt_dateRange F) as [r|]; [|done]. by apply date_between, Hr.
Qed.

(** X9. With a blank search text (nothing left after trimming) and the
    filters cleared, the feed is the whole list. *)
Theorem feed_without_filters (l : list Event) (q : string) :
  trim q = "" ->
  applyFilters toLowerCase trim l q clearedFilters = l.
Proof. intros Hq. unfold applyFilters. by rewrite Hq. Qed.

(** X10. Setting more filters only removes events: when [F'] keeps what
    [F] sets and sets more, the feed for [F'] is a sublist of the feed
    for [F], for the same list and search text. *)
Theorem feed_narrows_with_more_filters (l : list Event) (q : string) (F F' : Filters) :
  narrows F' F ->
  applyFilters toLowerCase trim l q F' `sublist_of` applyFilters toLowerCase trim l q F.
Proof.
  intros (Ht & Hd & Hr). rewrite !applyFilters_passes.
  apply bool_filter_sublist_impl. intros e. unfold passes.
  rewrite !andb_true_iff. intros (((Hs & Ht') & Hd') & Hr'). split_and!; [done|..].
  - destruct Ht as [->|<-]; done.
  - destruct Hd as [->|<-]; done.
  - destruct Hr as [->|<-]; done.
Qed.

(** X11. Switching the date range on in the filter modal, from cleared
    filters at clock reading [now], and applying it with a blank search
    shows exactly the events that start within the seven days from
    [now], both ends included. *)
Theorem next_seven_days_feed (l : list Event) (q : string) (now : Z) :
  trim q = "" ->
  forall e,
    e ∈ applyFilters toLowerCase trim l q (handleDateRangeToggle now clearedFilters) <->
    e ∈ l /\ exists t, dateTime e = Some t /\ now <= t <= now + 604800000.
Proof.
  intros Hq e. rewrite applyFilters_passes, elem_of_bool_filter.
  unfold passes. rewrite Hq. cbn -[Z.add Z.mul].
  unfold dateRangeMatch. cbv zeta. cbn [start end_]. rewrite date_between.
  split.
  - intros (He & t & lo & hi & Ht & [= <-] & [= <-] & H). split; [done|].
    exists t. split; [done|]. lia.
  - intros (He & t & Ht & H). split; [done|].
    exists t, now, (now + 7 * 24 * 60 * 60 * 1000). split_and!; try done; lia.
Qed.

End EventsFeedFurther.

(** * Properties of the My Events screen *)

Lemma sortInsert_Permutation {A} (cmp : A -> A -> option Z) (x : A) (l : list A) :
  sortInsert cmp x l ≡ₚ x :: l.
Proof.
  induction l as [|y l IH]; simpl; [done|].
  destruct (cmp x y) as [v|]; [|done].
  destruct (0 <? v); [|done]. rewrite IH. apply Permutation_swap.
Qed.

Lemma arraySort_Permutation {A} (cmp : A -> A -> option Z) (l : list A) :
  arraySort cmp l ≡ₚ l.
Proof.
  induction l as [|x l IH]; simpl; [done|].
  unfold arraySort in *. simpl. by rewrite sortInsert_Permutation, IH.
Qed.

Lemma sortInsert_sorted (x : Event) (l : list Event) :
  is_Some (dateTime x) -> Forall (fun e => is_Some (dateTime e)) l ->
  sortedByDateTime l -> sortedByDateTime (sortInsert compareByTime x l).
Proof.
  unfold sortedByDateTime. intros [tx Hx] Hvalid Hsorted.
  induction Hsorted as [|y l Hl IH Hy]; simpl.
  - repeat constructor.
  - apply Forall_cons in Hvalid as [[ty Hty] Hvalid].
    unfold compareByTime. rewrite Hx, Hty.
    destruct (Z.ltb_spec 0 (tx - ty)) as [Hlt|Hle].
    + constructor; [by apply IH|].
      rewrite sortInsert_Permutation. constructor; [|done].
      unfold dateTime_le, date_le. rewrite Hx, Hty. apply Z.leb_le. lia.
    + constructor; [by constructor|].
      assert (Hxy : dateTime_le x y).
      { unfold dateTime_le, date_le. rewrite Hx, Hty. apply Z.leb_le. lia. }
      constructor; [done|].
      eapply Forall_impl; [exact Hy|]. intros z Hz.
      unfold dateTime_le, date_le in *. rewrite Hx, Hty in *.
      destruct (dateTime z); [|done]. apply Z.leb_le in Hz, Hxy. apply Z.leb_le. lia.
Qed.

Lemma arraySort_sorted (l : list Event) :
  Forall (fun e => is_Some (dateTime e)) l ->
  sortedByDateTime (arraySort compareByTime l).
Proof.
  induction 1 as [|x l Hx Hl IH]; [constructor|].
  unfold arraySort in *. simpl. apply sortInsert_sorted; [done| |done].
  fold (arraySort compareByTime l). by rewrite arraySort_Permutation.
Qed.

(** A list already in ascending order comes back as it is. *)
Lemma arraySort_of_sorted (l : list Event) :
  sortedByDateTime l -> arraySort compareByTime l = l.
Proof.
  unfold sortedByDateTime. induction 1 as [|x l Hl IH Hx]; [done|].
  unfold arraySort in *. simpl. rewrite IH.
  destruct l as [|y l']; [done|]. simpl.
  apply Forall_cons in Hx as [Hxy _].
  unfold dateTime_le, date_le in Hxy. unfold compareByTime.
  destruct (dateTime x) as [tx|]; [|done]. destruct (dateTime y) as [ty|]; [|done].
  apply Z.leb_le in Hxy. destruct (Z.ltb_spec 0 (tx - ty)); [lia|done].
Qed.

Lemma sortedByDateTime_filter (p : Event -> bool) (l : list Event) :
  sortedByDateTime l -> sortedByDateTime (List.filter p l).
Proof.
  unfold sortedByDateTime. induction 1 as [|x l Hl IH Hx]; simpl; [constructor|].
  destruct (p x); [|done]. constructor; [done|].
  apply Forall_forall. intros y Hy. apply elem_of_bool_filter in Hy as [Hy _].
  by apply (proj1 (Forall_forall _ _) Hx).
Qed.

(** X12. For a signed-in user and events with valid dates, My Events
    holds exactly the events of the list the user attends (first tab) or
    hosts (second tab), each as often as in the list, in ascending
    [dateTime] order. *)
Theorem myEvents_sorted_selection (u : User) (activeTab : Tab)
    (allEvents myEvents : list Event) :
  Forall (fun e => is_Some (dateTime e)) allEvents ->
  let shown := myEventsEffect (Some u) activeTab allEvents myEvents in
  sortedByDateTime shown /\
  shown ≡ₚ List.filter
            (fun e => match activeTab with
                      | TabRsvped => bool_decide (uid u ∈ rsvpList e)
                      | TabOrganized => bool_decide (hostId e = uid u)
                      end) allEvents /\
  forall e, e ∈ shown <->
    e ∈ allEvents /\
    match activeTab with
    | TabRsvped => uid u ∈ rsvpList e
    | TabOrganized => hostId e = uid u
    end.
Proof.
  intros Hvalid shown. subst shown. unfold myEventsEffect.
  assert (Hsame : (match activeTab with
            | TabRsvped =>
                List.filter (fun event => existsb (String.eqb (uid u)) (rsvpList event))
                  allEvents
            | TabOrganized =>
                List.filter (fun event => String.eqb (hostId event) (uid u)) allEvents
            end) = List.filter
            (fun e => match activeTab with
                      | TabRsvped => bool_decide (uid u ∈ rsvpList e)
                      | TabOrganized => bool_decide (hostId e = uid u)
                      end) allEvents).
  { destruct activeTab; apply List.filter_ext; intros e.
    - apply includes_uid.
    - destruct (String.eqb_spec (hostId e) (uid u)) as [H|H].
      + by rewrite bool_decide_eq_true_2.
      + by rewrite bool_decide_eq_false_2. }
  rewrite Hsame. split_and!.
  - apply arraySort_sorted. apply Forall_forall. intros e He.
    apply elem_of_bool_filter in He as [He _].
    by apply (proj1 (Forall_forall _ _) Hvalid).
  - apply arraySort_Permutation.
  - intros e. rewrite arraySort_Permutation, elem_of_bool_filter.
    destruct activeTab; by rewrite bool_decide_eq_true.
Qed.

(** X13. The provider's list is already in ascending [dateTime] order;
    on such a list the sort of My Events moves nothing: the screen shows
    the attended (or hosted) events in the order of the list. Without a
    user the effect leaves the screen's list as it was. *)
Theorem myEvents_of_sorted_list (user : option User) (activeTab : Tab)
    (allEvents myEvents : list Event) :
  sortedByDateTime allEvents ->
  myEventsEffect user activeTab allEvents myEvents =
    match user with
    | None => myEvents
    | Some u =>
        List.filter
          (fun e => match activeTab with
                    | TabRsvped => bool_decide (uid u ∈ rsvpList e)
                    | TabOrganized => bool_decide (hostId e = uid u)
                    end) allEvents
    end.
Proof.
  intros Hsorted. destruct user as [u|]; [|done]. unfold myEventsEffect.
  destruct activeTab.
  - rewrite arraySort_of_sorted by by apply sortedByDateTime_filter.
    apply List.filter_ext. intros e. apply includes_uid.
  - rewrite arraySort_of_sorted by by apply sortedByDateTime_filter.
    apply List.filter_ext. intros e.
    destruct (String.eqb_spec (hostId e) (uid u)) as [H|H].
    + by rewrite bool_decide_eq_true_2.
    + by rewrite bool_decide_eq_false_2.
Qed.

(** * Properties of the date helpers *)

Lemma plainText_app (a b : string) :
  plainText (a +:+ b) = plainText a && plainText b.
Proof.
  induction a as [|x a IH]; [done|].
  rewrite append_cons. simpl. by rewrite IH, andb_assoc.
Qed.

(** Two texts that agree, each a printed integer followed by another
    character, agree part by part. *)
Lemma plain_prefix_inj (p1 p2 : string) (c1 c2 : Ascii.ascii) (t1 t2 : string) :
  plainText p1 = true -> plainText p2 = true ->
  plainChar c1 = false -> plainChar c2 = false ->
  p1 +:+ String c1 t1 = p2 +:+ String c2 t2 ->
  p1 = p2 /\ c1 = c2 /\ t1 = t2.
Proof.
  revert p2. induction p1 as [|x p1 IH]; intros [|y p2] H1 H2 Hc1 Hc2 Heq.
  - by injection Heq as -> ->.
  - rewrite append_cons in Heq. injection Heq as -> _.
    simpl in H2. apply andb_true_iff in H2 as [H2 _]. congruence.
  - rewrite append_cons in Heq. injection Heq as -> _.
    simpl in H1. apply andb_true_iff in H1 as [H1 _]. congruence.
  - rewrite !append_cons in Heq. injection Heq as -> Heq.
    simpl in H1, H2. apply andb_true_iff in H1 as [_ H1], H2 as [_ H2].
    destruct (IH p2 H1 H2 Hc1 Hc2 Heq) as (-> & -> & ->). done.
Qed.

Lemma pretty_N_char_plain (x : N) : plainChar (pretty_N_char x) = true.
Proof. unfold pretty_N_char. by repeat case_match. Qed.

Lemma pretty_N_go_plain (x : N) (s : string) :
  exists p, pretty_N_go x s = p +:+ s /\ plainText p = true /\ ((0 < x)%N -> p <> "").
Proof.
  revert s. induction (N.lt_wf_0 x) as [x _ IH]; intros s.
  destruct (decide (x = 0%N)) as [->|Hx].
  - exists "". rewrite pretty_N_go_0. split_and!; [done|done|lia].
  - rewrite pretty_N_go_step by lia.
    destruct (IH (x `div` 10)%N) with (s := String (pretty_N_char (x `mod` 10)) s)
      as (p & -> & Hp & _).
    { apply N.div_lt; lia. }
    exists (p +:+ String (pretty_N_char (x `mod` 10)) "").
    split_and!.
    + by rewrite append_assoc.
    + rewrite plainText_app, Hp. simpl. by rewrite pretty_N_char_plain.
    + intros _. by destruct p.
Qed.

Lemma pretty_N_plain (x : N) : plainText (pretty x) = true /\ pretty x <> "".
Proof.
  unfold pretty, pretty_N. case_decide as Hx; [done|].
  destruct (pretty_N_go_plain x "") as (p & -> & Hp & Hne).
  assert (Hp' : p +:+ "" = p).
  { clear. induction p as [|c p IH]; [done|]. by rewrite append_cons, IH. }
  rewrite Hp'. split; [done|]. apply Hne. lia.
Qed.

Lemma pretty_Z_plain (z : Z) : plainText (pretty z) = true /\ pretty z <> "".
Proof.
  destruct z as [|x|x]; [done|..].
  - apply (pretty_N_plain (N.pos x)).
  - destruct (pretty_N_plain (N.pos x)) as [Hp _].
    change (pretty (Z.neg x)) with ("-" +:+ pretty (N.pos x)).
    rewrite append_cons. split; [|done]. simpl. exact Hp.
Qed.

(** A printed integer followed by anything is not the text of the
    started event. *)
Lemma printed_number_not_started (z : Z) (rest : string) :
  pretty z +:+ rest <> "Event has started".
Proof.
  destruct (pretty_Z_plain z) as [Hp Hne].
  destruct (pretty z) as [|c p]; [done|].
  rewrite append_cons. intros [= -> _]. done.
Qed.

Lemma rem_div_60 (m : Z) : 60 <= m -> m = 60 * (m / 60) + Z.rem m 60.
Proof.
  intros Hm. rewrite Z.rem_mod_nonneg by lia. apply Z.div_mod. lia.
Qed.

(** X14. The text of a duration tells the duration: two numbers of
    minutes with the same text are the same number. *)
Theorem duration_text_unambiguous (m1 m2 : Z) :
  formatEventDuration m1 = formatEventDuration m2 -> m1 = m2.
Proof.
  unfold formatEventDuration.
  destruct (pretty_Z_plain m1) as [Hm1 _], (pretty_Z_plain m2) as [Hm2 _].
  destruct (pretty_Z_plain (m1 / 60)) as [Hh1 _], (pretty_Z_plain (m2 / 60)) as [Hh2 _].
  destruct (pretty_Z_plain (Z.rem m1 60)) as [Hr1 _],
    (pretty_Z_plain (Z.rem m2 60)) as [Hr2 _].
  destruct (Z.ltb_spec m1 60) as [Hlt1|Hge1], (Z.ltb_spec m2 60) as [Hlt2|Hge2];
    cbv zeta.
  - intros H. apply plain_prefix_inj in H as (H & _ & _); [|done..].
    by apply (inj pretty) in H.
  - destruct (Z.eqb_spec (Z.rem m2 60) 0) as [E|E]; intros H;
      apply plain_prefix_inj in H as (_ & Hc & _); done.
  - destruct (Z.eqb_spec (Z.rem m1 60) 0) as [E|E]; intros H;
      apply plain_prefix_inj in H as (_ & Hc & _); done.
  - pose proof (rem_div_60 m1 Hge1) as D1. pose proof (rem_div_60 m2 Hge2) as D2.
    destruct (Z.eqb_spec (Z.rem m1 60) 0) as [E1|E1],
      (Z.eqb_spec (Z.rem m2 60) 0) as [E2|E2]; intros H;
      apply plain_prefix_inj in H as (Hh & _ & Ht); try done;
      apply (inj pretty) in Hh.
    + lia.
    + injection Ht as Ht.
      apply plain_prefix_inj in Ht as (Hr & _ & _); [|done..].
      apply (inj pretty) in Hr. lia.
Qed.

(** X15. While the event is still ahead, the countdown accounts for the
    time left to within a minute: whole days, hours below 24 and minutes
    below 60 that add up to the time left, rounded down to the minute.
    The text shows the two largest units: days and hours when a day or
    more is left, hours and minutes when an hour or more, else the
    minutes alone (["0m"] in the last minute). *)
Theorem countdown_accounts_for_time_left (t now : Z) :
  now < t ->
  exists days hours minutes,
    0 <= days /\ 0 <= hours < 24 /\ 0 <= minutes < 60 /\
    days * 86400000 + hours * 3600000 + minutes * 60000 <= t - now
      < days * 86400000 + hours * 3600000 + minutes * 60000 + 60000 /\
    getTimeUntilEvent (Some t) now =
      if 0 <? days then pretty days +:+ "d " +:+ pretty hours +:+ "h"
      else if 0 <? hours then pretty hours +:+ "h " +:+ pretty minutes +:+ "m"
      else pretty minutes +:+ "m".
Proof.
  intros Hlt. set (diff := t - now).
  exists (diff / 86400000), (Z.rem diff 86400000 / 3600000),
    (Z.rem diff 3600000 / 60000).
  assert (Hd : 0 < diff) by (subst diff; lia).
  rewrite !Z.rem_mod_nonneg by lia.
  pose proof (Z.div_mod diff 86400000 ltac:(lia)) as E1.
  pose proof (Z.mod_pos_bound diff 86400000 ltac:(lia)) as B1.
  pose proof (Z.div_mod (diff mod 86400000) 3600000 ltac:(lia)) as E2.
  pose proof (Z.mod_pos_bound (diff mod 86400000) 3600000 ltac:(lia)) as B2.
  pose proof (Z.div_mod (diff mod 3600000) 60000 ltac:(lia)) as E3.
  pose proof (Z.mod_pos_bound (diff mod 3600000) 60000 ltac:(lia)) as B3.
  pose proof (Z.mod_pos_bound diff 3600000 ltac:(lia)) as B4.
  assert (Hmm : (diff mod 86400000) mod 3600000 = diff mod 3600000).
  { apply Z.mod_mod_divide. exists 24. lia. }
  assert (H0 : 0 <= diff / 86400000) by (apply Z.div_pos; lia).
  assert (H1 : 0 <= diff mod 86400000 / 3600000) by (apply Z.div_pos; lia).
  assert (H2 : 0 <= diff mod 3600000 / 60000) by (apply Z.div_pos; lia).
  split_and!; try lia.
  unfold getTimeUntilEvent. cbn [fmap option_fmap option_map num_leb num_gtb numberToString].
  fold diff. destruct (Z.leb_spec diff 0); [lia|].
  change (1000 * 60 * 60 * 24) with 86400000.
  change (1000 * 60 * 60) with 3600000. change (1000 * 60) with 60000.
  rewrite !Z.rem_mod_nonneg by lia. done.
Qed.

(** X16. The two helpers agree on valid dates: an event is upcoming
    exactly when its countdown is not ['Event has started']. On an
    invalid date they part: the event is not upcoming, and the countdown
    reads ["NaNm"]. *)
Theorem upcoming_iff_countdown_running (now : Z) :
  (forall t, isEventUpcoming (Some t) now = true <->
             getTimeUntilEvent (Some t) now <> "Event has started") /\
  isEventUpcoming None now = false /\
  getTimeUntilEvent None now = "NaNm".
Proof.
  split; [|done]. intros t. unfold isEventUpcoming, getTimeUntilEvent.
  cbn [fmap option_fmap option_map num_leb num_gtb numberToString].
  destruct (Z.leb_spec (t - now) 0) as [Hle|Hgt].
  - split; [|done]. intros H. apply Z.ltb_lt in H. lia.
  - split; [|intros _; apply Z.ltb_lt; lia]. intros _.
    destruct (0 <? _); [apply printed_number_not_started|].
    destruct (0 <? _); apply printed_number_not_started.
Qed.

(** * Properties of the callers of [toggleRSVP] *)

Lemma find_present (eventId : string) (l : list Event) :
  eventId ∈ id <$> l ->
  exists event, List.find (fun e => String.eqb (id e) eventId) l = Some event.
Proof.
  induction l as [|e l IH]; simpl.
  - intros H. by apply elem_of_nil in H.
  - rewrite elem_of_cons. intros [->|Hin].
    + rewrite String.eqb_refl. eauto.
    + destruct (String.eqb (id e) eventId); eauto.
Qed.

Lemma find_has_id (eventId : string) (l : list Event) (event : Event) :
  List.find (fun e => String.eqb (id e) eventId) l = Some event ->
  id event = eventId /\ event ∈ l.
Proof.
  intros H. apply List.find_some in H as [Hin Heq].
  split; [by apply String.eqb_eq|by apply list_elem_of_In].
Qed.

(** How a call of [toggleRSVP] ends. When it gets to its write it has
    sent that one write, and ends as the write settles; when it does
    not, it throws and has changed nothing. *)
Lemma toggleRSVP_reaches (user : option User) (eventId : string) (now : Z)
    (settlement : Settlement) (w : World) :
  reachesWrite user eventId w ->
  exists r,
    toggleRSVP user eventId now settlement w =
      (match settlement with
       | Fulfilled => Normal tt
       | Rejected message => Throw message
       | NeverSettled => Pending
       end,
       {| events := events w; loading := loading w; asyncStorage := asyncStorage w;
          requests := requests w ++ [r] |}).
Proof.
  intros (Hu & [reference Hdoc] & Hin). destruct user as [u|]; [|done].
  destruct (find_present _ _ Hin) as [event Hfind].
  eexists. by apply (toggleRSVP_found_at _ _ _ _ _ reference event).
Qed.

Lemma toggleRSVP_stops (user : option User) (eventId : string) (now : Z)
    (settlement : Settlement) (w : World) :
  ~ reachesWrite user eventId w ->
  exists message, toggleRSVP user eventId now settlement w = (Throw message, w).
Proof.
  intros Hno. destruct user as [u|]; [|by eexists].
  destruct (doc "events" eventId) as [reference|refused] eqn:Hdoc.
  - exists "Event not found". apply (toggleRSVP_not_found _ _ _ _ _ reference Hdoc).
    apply find_absent. intros Hin. apply Hno. split_and!; [done|eauto|done].
  - exists refused. by apply toggleRSVP_refused.
Qed.

Lemma reachesWrite_dec (user : option User) (eventId : string) (w : World) :
  reachesWrite user eventId w \/ ~ reachesWrite user eventId w.
Proof.
  unfold reachesWrite. destruct user as [u|]; [|right; by intros [? _]].
  destruct (doc "events" eventId) as [reference|refused];
    [|right; by intros (_ & [? ?] & _)].
  destruct (decide (eventId ∈ id <$> events w)) as [Hin|Hout].
  - left. split_and!; [done|eauto|done].
  - right. by intros (_ & _ & ?).
Qed.

(** X17. [handleRSVP] of the feed never throws: it returns, or, when the
    write it awaits is never settled, it does not return. It returns
    without an alert exactly when the call got to its write and
    Firestore acknowledged it, does not return exactly when it got to
    its write and the write is never settled, and shows an alert
    otherwise: the login alert without a user, the failure alert with
    one. It sends one write when the call gets to it and none otherwise;
    the in-memory list, the loading flag and the cache are untouched. *)
Theorem feed_handleRSVP_outcome (user : option User) (eventId : string) (now : Z)
    (settlement : Settlement) (w : World) :
  exists result w',
    feed_handleRSVP user eventId now settlement w = (result, w') /\
    (forall message, result <> Throw message) /\
    events w' = events w /\ loading w' = loading w /\
    asyncStorage w' = asyncStorage w /\
    (result = Normal None <->
       reachesWrite user eventId w /\ settlement = Fulfilled) /\
    (result = Pending <->
       reachesWrite user eventId w /\ settlement = NeverSettled) /\
    (result = Normal (Some loginRequired) <-> user = None) /\
    (result = Normal (Some rsvpFailed) <->
       user <> None /\
       (~ reachesWrite user eventId w \/ exists message, settlement = Rejected message)) /\
    (sentBy w w' = [] <-> ~ reachesWrite user eventId w) /\
    (length (sentBy w w') <= 1)%nat.
Proof.
  destruct user as [u|].
  2:{ exists (Normal (Some loginRequired)), w.
      unfold sentBy. rewrite drop_all. split_and!; try done.
      - split; [done|]. by intros [[? _] _].
      - split; [done|]. by intros [[? _] _].
      - split; [done|]. by intros [? _].
      - split; [intros _|done]. by intros [? _].
      - simpl. lia. }
  unfold feed_handleRSVP, try_catch, mbind, Prog_bind.
  destruct (reachesWrite_dec (Some u) eventId w) as [Hr|Hno].
  - destruct (toggleRSVP_reaches _ _ now settlement _ Hr) as [r ->].
    destruct settlement as [|message|]; eexists _, _; (split; [reflexivity|]);
      unfold sentBy; cbn [requests events loading asyncStorage];
      rewrite drop_app_length; split_and!; try done.
    all: try (split; [done|]; by intros [_ ?]).
    all: try (split; [done|]; by intros [_ [?|[? ?]]]).
    + split; [intros _|done]. split; [done|]. right. by eexists.
  - destruct (toggleRSVP_stops _ _ now settlement _ Hno) as [message ->].
    eexists _, w. split; [reflexivity|].
    unfold sentBy. rewrite drop_all. split_and!; try done.
    all: try (split; [done|]; by intros [? _]).
    + split; [intros _|done]. split; [done|]. by left.
    + simpl. lia.
Qed.

Lemma last_cons_default {A} (l : list A) (a d : A) :
  List.last (a :: l) d = List.last l a.
Proof.
  revert a d. induction l as [|x l IH]; intros a d; [done|].
  change (List.last (a :: x :: l) d) with (List.last (x :: l) d).
  by rewrite !IH.
Qed.

(** X18. The details screen keeps the last known event. Over any
    sequence of in-memory lists, the event shown always carries the
    identifier of the route; when the newest list holds that identifier
    the screen shows the event from it; and once some list has held it
    the screen never goes back to showing nothing, even after the event
    has left the list. *)
Theorem detail_keeps_last_known_event (routeId : string) (first : list Event)
    (later : list (list Event)) :
  let shown := fold_left (detail_onEvents routeId) later
                 (detail_initialEvent first routeId) in
  (forall e, shown = Some e -> id e = routeId) /\
  (routeId ∈ id <$> List.last later first ->
     shown = List.find (fun e => String.eqb (id e) routeId) (List.last later first)) /\
  ((exists l, l ∈ first :: later /\ routeId ∈ id <$> l) -> is_Some shown).
Proof.
  intros shown. subst shown. unfold detail_initialEvent.
  set (start := List.find (fun e => String.eqb (id e) routeId) first).
  assert (Hstart : forall e, start = Some e -> id e = routeId).
  { intros e He. by apply find_has_id in He as [? _]. }
  assert (Hfirst : routeId ∈ id <$> first -> is_Some start).
  { intros Hin. destruct (find_present _ _ Hin) as [e He]. subst start. eauto. }
  assert (Hlast : routeId ∈ id <$> first ->
                  start = List.find (fun e => String.eqb (id e) routeId) first) by done.
  clearbody start. revert first start Hstart Hfirst Hlast.
  induction later as [|l later IH]; intros first start Hstart Hfirst Hlast.
  - simpl. split_and!; [done|done|].
    intros (l & Hl & Hin). apply list_elem_of_singleton in Hl as ->. by apply Hfirst.
  - cbn [fold_left]. specialize (IH l (detail_onEvents routeId start l)).
    destruct IH as (IH1 & IH2 & IH3).
    + unfold detail_onEvents. intros e.
      destruct (List.find _ l) as [e'|] eqn:Hf.
      * intros [= <-]. by apply find_has_id in Hf as [? _].
      * apply Hstart.
    + intros Hin. unfold detail_onEvents.
      destruct (find_present _ _ Hin) as [e ->]. eauto.
    + intros Hin. unfold detail_onEvents.
      by destruct (find_present _ _ Hin) as [e ->].
    + split_and!; [done|..].
      * rewrite last_cons_default. apply IH2.
      * intros (l' & Hl' & Hin).
        apply elem_of_cons in Hl' as [->|Hl']; [|apply IH3; eauto].
        assert (Hs : is_Some (detail_onEvents routeId start l)).
        { unfold detail_onEvents. destruct (List.find _ l); [eauto|by apply Hfirst]. }
        clear -Hs. revert Hs. generalize (detail_onEvents routeId start l).
        induction later as [|l2 later IH]; intros o Ho; [done|].
        cbn [fold_left]. apply IH. unfold detail_onEvents.
        destruct (List.find _ l2); [eauto|done].
Qed.

(** X19. [handleRSVP] of the details screen never throws. Without a
    user it shows the login alert; with a user but no event it does
    nothing; in both cases no write is sent and the screen's loading
    flag stays as it was. With a user and an event, the call returns
    without an alert exactly when it got to its write and Firestore
    acknowledged it; it shows the failure alert and sends nothing when
    it does not get to its write (the stale screen of an event that has
    left the list, or an identifier [doc] refuses); in these cases the
    loading flag ends [false]. When the call got to its write and the
    write is never settled, it never returns, and the loading flag stays
    [true]. *)
Theorem detail_handleRSVP_outcome (user : option User) (event : option Event)
    (screenLoading : bool) (now : Z) (settlement : Settlement) (w : World) :
  exists result screenLoading' w',
    detail_handleRSVP user event screenLoading now settlement w
      = (result, screenLoading', w') /\
    (forall message, result <> Throw message) /\
    events w' = events w /\ asyncStorage w' = asyncStorage w /\
    (user = None ->
       result = Normal (Some loginRequired) /\ screenLoading' = screenLoading /\ w' = w) /\
    (user <> None -> event = None ->
       result = Normal None /\ screenLoading' = screenLoading /\ w' = w) /\
    (forall e, user <> None -> event = Some e ->
       (result = Normal None <->
          reachesWrite user (id e) w /\ settlement = Fulfilled) /\
       (result = Pending <->
          reachesWrite user (id e) w /\ settlement = NeverSettled) /\
       (result = Pending -> screenLoading' = true) /\
       (result <> Pending -> screenLoading' = false) /\
       (~ reachesWrite user (id e) w ->
          result = Normal (Some rsvpFailed) /\ w' = w)).
Proof.
  destruct user as [u|]; [|by eexists _, _, w].
  destruct event as [e|]; [|by eexists _, _, w].
  unfold detail_handleRSVP.
  destruct (reachesWrite_dec (Some u) (id e) w) as [Hr|Hno].
  - destruct (toggleRSVP_reaches _ _ now settlement _ Hr) as [r ->].
    destruct settlement as [|message|]; eexists _, _, _; (split; [reflexivity|]);
      split_and!; try done; intros e' _ [= <-]; split_and!; try done.
    all: split; [done|]; by intros [_ ?].
  - destruct (toggleRSVP_stops _ _ now settlement _ Hno) as [message ->].
    eexists _, _, w. split; [reflexivity|].
    split_and!; try done. intros e' _ [= <-]. split_and!; try done.
    all: split; [done|]; by intros [? _].
Qed.

(** * Properties of the other decoders *)

(** X20. A decoded comment: the decoder succeeds exactly when the body's
    [createdAt] is a timestamp; the comment then carries that instant as
    a date, every other field of the body as it is, and as [id] the
    body's own [id] field when it has one, the document identifier
    otherwise. *)
Theorem decoded_comment_fields (docId : string) (data : DocumentData) :
  (is_Some (decodeCommentObject docId data) <->
   exists t, data !! "createdAt" = Some (VTimestamp t)) /\
  forall o, decodeCommentObject docId data = Some o ->
    (exists t, data !! "createdAt" = Some (VTimestamp t) /\
               o !! "createdAt" = Some (VDate (toDate t))) /\
    o !! "id" = Some (default (VStr docId) (data !! "id")) /\
    forall name, name <> "id" -> name <> "createdAt" -> o !! name = data !! name.
Proof.
  unfold decodeCommentObject. split.
  - split.
    + intros [o Ho].
      destruct (fieldToDate data "createdAt") as [d|] eqn:Hd; simplify_eq/=.
      apply fieldToDate_Some in Hd as (t & ? & _). eauto.
    + intros [t Ht]. unfold fieldToDate. rewrite Ht. simpl. eauto.
  - intros o Ho.
    destruct (fieldToDate data "createdAt") as [d|] eqn:Hd; simplify_eq/=.
    apply fieldToDate_Some in Hd as (t & Ht & ->).
    unfold setProp, spread. split_and!.
    + exists t. split; [done|]. apply lookup_insert_eq.
    + rewrite lookup_insert_ne by done. rewrite lookup_union, lookup_insert_eq.
      by destruct (data !! "id").
    + intros name ? ?. rewrite lookup_insert_ne by done.
      rewrite lookup_union, lookup_insert_ne by done. rewrite lookup_empty.
      by destruct (data !! name).
Qed.

(** X21. A decoded user profile: a [createdAt] or [updatedAt] that is
    missing or [null] becomes the clock reading, a timestamp becomes its
    date, and on any other value the decoder fails; every other field is
    passed on as it is, and no identifier is added. *)
Theorem decoded_user_dates (data : DocumentData) (now1 now2 : Z) :
  (is_Some (decodeUserObject data now1 now2) <->
   forall field, field = "createdAt" \/ field = "updatedAt" ->
     data !! field = None \/ data !! field = Some VNull \/
     exists t, data !! field = Some (VTimestamp t)) /\
  forall o, decodeUserObject data now1 now2 = Some o ->
    o !! "createdAt" =
      Some (VDate match data !! "createdAt" with
                  | Some (VTimestamp t) => toDate t
                  | _ => Some now1
                  end) /\
    o !! "updatedAt" =
      Some (VDate match data !! "updatedAt" with
                  | Some (VTimestamp t) => toDate t
                  | _ => Some now2
                  end) /\
    forall name, name <> "createdAt" -> name <> "updatedAt" -> o !! name = data !! name.
Proof.
  assert (Hfield : forall field now,
            is_Some (fieldToDateOrNow data field now) <->
            data !! field = None \/ data !! field = Some VNull \/
            exists t, data !! field = Some (VTimestamp t)).
  { intros field now. unfold fieldToDateOrNow.
    destruct (data !! field) as [[]|]; split; eauto;
      try (intros [?|[?|[? ?]]]; done); by intros []. }
  unfold decodeUserObject. split.
  - split.
    + intros [o Ho] field [->| ->].
      * apply (Hfield _ now1).
        destruct (fieldToDateOrNow data "createdAt" now1); simplify_eq/=. eauto.
      * apply (Hfield _ now2).
        destruct (fieldToDateOrNow data "createdAt" now1); simplify_eq/=.
        destruct (fieldToDateOrNow data "updatedAt" now2); simplify_eq/=. eauto.
    + intros H.
      destruct (proj2 (Hfield "createdAt" now1) (H _ (or_introl eq_refl))) as [d1 ->].
      destruct (proj2 (Hfield "updatedAt" now2) (H _ (or_intror eq_refl))) as [d2 ->].
      simpl. eauto.
  - intros o Ho.
    destruct (fieldToDateOrNow data "createdAt" now1) as [d1|] eqn:H1; simplify_eq/=.
    destruct (fieldToDateOrNow data "updatedAt" now2) as [d2|] eqn:H2; simplify_eq/=.
    unfold setProp, spread, fieldToDateOrNow in *. split_and!.
    + rewrite lookup_insert_ne by done. rewrite lookup_insert_eq.
      destruct (data !! "createdAt") as [[]|]; by simplify_eq.
    + rewrite lookup_insert_eq.
      destruct (data !! "updatedAt") as [[]|]; by simplify_eq.
    + intros name ? ?. rewrite !lookup_insert_ne by done.
      rewrite lookup_union, lookup_empty. by destruct (data !! name).
Qed.

(** * The round trip of a creation *)

Section CreationRoundTrip.
Variable JSON_stringify : list Event -> string.


End CreationRoundTrip.

(** * Worked instances of the further properties *)

Lemma double_tap_is_one_toggle_witness :
  documentId "E1" = true /\
  List.find (fun e => String.eqb (id e) "E1") (events (client sampleSystem))
    = Some (decodeEvent "E1" (mockDoc 2 ["u1"; "u2"])) /\
  backend sampleSystem !! "E1" = Some (mockDoc 2 ["u1"; "u2"]) /\
  (fun d => (d_rsvpCount d, d_rsvpList d)) <$>
    fold_left commit
      (sentBy (client sampleSystem)
         (snd (toggleRSVP (Some (mockUser "u3" RoleUser)) "E1" 2000 Fulfilled
                 (snd (toggleRSVP (Some (mockUser "u3" RoleUser)) "E1" 1000 Fulfilled
                         (client sampleSystem))))))
      (backend sampleSystem) !! "E1"
  = Some (3, ["u1"; "u2"; "u3"]).
Proof.
  assert (Hfind : List.find (fun e => String.eqb (id e) "E1")
                    (events (client sampleSystem))
                  = Some (decodeEvent "E1" (mockDoc 2 ["u1"; "u2"]))) by reflexivity.
  assert (Hd : backend sampleSystem !! "E1" = Some (mockDoc 2 ["u1"; "u2"]))
    by reflexivity.
  split; [reflexivity|]. split; [exact Hfind|]. split; [exact Hd|].
  rewrite (proj2 (double_tap_is_one_toggle (backend sampleSystem) (client sampleSystem)
                    (mockUser "u3" RoleUser) "E1" 1000 2000 _ _ eq_refl Hfind Hd)).
  rewrite lookup_insert_eq. reflexivity.
Defined.

Lemma stale_toggles_by_two_users_undercount_witness :
  documentId "E1" = true /\
  exists d',
    fold_left commit
      (sentBy (client sampleSystem)
         (snd (toggleRSVP (Some (mockUser "u3" RoleUser)) "E1" 1000 Fulfilled
                 (client sampleSystem))) ++
       sentBy (client sampleSystem)
         (snd (toggleRSVP (Some (mockUser "u4" RoleUser)) "E1" 2000 Fulfilled
                 (client sampleSystem))))
      (backend sampleSystem) !! "E1" = Some d' /\
    d_rsvpList d' = ["u1"; "u2"; "u3"; "u4"] /\ d_rsvpCount d' = 3.
Proof.
  split; [reflexivity|].
  destruct (stale_toggles_by_two_users_undercount (backend sampleSystem)
              (client sampleSystem) (client sampleSystem)
              (mockUser "u3" RoleUser) (mockUser "u4" RoleUser) "E1" 1000 2000
              (mockDoc 2 ["u1"; "u2"]))
    as (d' & H1 & H2 & H3 & _); try reflexivity; try by_evaluation.
  exists d'. split; [exact H1|]. split; [exact H2|exact H3].
Defined.

Lemma toggle_twice_restores_attendance_witness :
  documentId "E1" = true /\
  Synced sampleSystem /\
  exists d2,
    backend (rsvpRound sampleStringify (sampleToggle "u3" "E1")
               (rsvpRound sampleStringify (sampleToggle "u3" "E1") sampleSystem))
      !! "E1" = Some d2 /\
    d_rsvpCount d2 = 2 /\ d_rsvpList d2 = ["u1"; "u2"].
Proof.
  split; [reflexivity|].
  split; [exact sample_collection_synced|].
  destruct (toggle_twice_restores_attendance sampleStringify sampleSystem
              (sampleToggle "u3" "E1") (sampleToggle "u3" "E1")
              (mockDoc 2 ["u1"; "u2"]) eq_refl sample_collection_synced)
    as (d2 & H1 & H2 & _ & H4 & _); try reflexivity.
  exists d2. split; [exact H1|]. split; [exact H2|].
  apply H4. by_evaluation.
Defined.

Lemma feed_without_filters_witness :
  asciiTrim "   " = "" /\
  applyFilters asciiLower asciiTrim sampleFeed "   " clearedFilters = sampleFeed.
Proof.
  split; [reflexivity|]. apply feed_without_filters. reflexivity.
Defined.

Lemma feed_narrows_with_more_filters_witness :
  narrows typeAndDifficulty typeOnly /\
  applyFilters asciiLower asciiTrim sampleFeed "yoga" typeAndDifficulty
    `sublist_of` applyFilters asciiLower asciiTrim sampleFeed "yoga" typeOnly.
Proof.
  assert (H : narrows typeAndDifficulty typeOnly).
  { split_and!; [by right|by left|by left]. }
  split; [exact H|]. by apply feed_narrows_with_more_filters.
Defined.

Lemma next_seven_days_feed_witness :
  asciiTrim "" = "" /\
  (sampleEvent "e2" "City Run" Run Beginner 1764698400000
     ∈ applyFilters asciiLower asciiTrim sampleFeed ""
         (handleDateRangeToggle 1764650000000 clearedFilters)).
Proof.
  split; [reflexivity|].
  apply (next_seven_days_feed asciiLower asciiTrim sampleFeed "" 1764650000000 eq_refl).
  split; [by_evaluation|].
  exists 1764698400000. split; [reflexivity|]. lia.
Defined.

Lemma sampleFeed_valid : Forall (fun e => is_Some (dateTime e)) sampleFeed.
Proof. repeat constructor; by eexists. Qed.

Lemma sampleFeed_sorted : sortedByDateTime sampleFeed.
Proof. repeat constructor. Qed.

Lemma myEvents_sorted_selection_witness :
  Forall (fun e => is_Some (dateTime e)) sampleFeed /\
  sortedByDateTime
    (myEventsEffect (Some (mockUser "host-user-id" RoleOrganizer)) TabOrganized
       sampleFeed []).
Proof.
  split; [exact sampleFeed_valid|].
  exact (proj1 (myEvents_sorted_selection (mockUser "host-user-id" RoleOrganizer)
                  TabOrganized sampleFeed [] sampleFeed_valid)).
Defined.

Lemma myEvents_of_sorted_list_witness :
  sortedByDateTime sampleFeed /\
  myEventsEffect (Some (mockUser "host-user-id" RoleOrganizer)) TabOrganized
    sampleFeed [] = sampleFeed.
Proof.
  split; [exact sampleFeed_sorted|].
  rewrite (myEvents_of_sorted_list _ _ _ _ sampleFeed_sorted). reflexivity.
Defined.

Lemma duration_text_unambiguous_witness :
  formatEventDuration 90 = formatEventDuration (60 + 30) /\ 90 = 60 + 30.
Proof.
  split; [reflexivity|]. apply duration_text_unambiguous. reflexivity.
Defined.

Lemma countdown_accounts_for_time_left_witness :
  1000 < 100000000 /\
  exists days hours minutes,
    0 <= days /\ 0 <= hours < 24 /\ 0 <= minutes < 60 /\
    days * 86400000 + hours * 3600000 + minutes * 60000 <= 100000000 - 1000
      < days * 86400000 + hours * 3600000 + minutes * 60000 + 60000 /\
    getTimeUntilEvent (Some 100000000) 1000 =
      if 0 <? days then pretty days +:+ "d " +:+ pretty hours +:+ "h"
      else if 0 <? hours then pretty hours +:+ "h " +:+ pretty minutes +:+ "m"
      else pretty minutes +:+ "m".
Proof.
  split; [lia|]. apply countdown_accounts_for_time_left. lia.
Defined.

Lemma detail_keeps_last_known_event_witness :
  (exists l, l ∈ [sampleFeed; []] /\ "e2" ∈ id <$> l) /\
  is_Some (fold_left (detail_onEvents "e2") [[]] (detail_initialEvent sampleFeed "e2")).
Proof.
  assert (H : exists l, l ∈ [sampleFeed; []] /\ "e2" ∈ id <$> l).
  { exists sampleFeed. split; [left|by_evaluation]. }
  split; [exact H|].
  exact (proj2 (proj2 (detail_keeps_last_known_event "e2" sampleFeed [[]])) H).
Defined.

Lemma detail_handleRSVP_outcome_witness :
  reachesWrite (Some (mockUser "u3" RoleUser)) "E1" (client sampleSystem) /\
  fst (detail_handleRSVP (Some (mockUser "u3" RoleUser))
         (Some (decodeEvent "E1" (mockDoc 2 ["u1"; "u2"]))) false 1000 NeverSettled
         (client sampleSystem))
  = (Pending, true).
Proof.
  assert (H : reachesWrite (Some (mockUser "u3" RoleUser)) "E1" (client sampleSystem)).
  { split_and!; [done|by eexists|by_evaluation]. }
  split; [exact H|].
  destruct (detail_handleRSVP_outcome (Some (mockUser "u3" RoleUser))
              (Some (decodeEvent "E1" (mockDoc 2 ["u1"; "u2"])))
              false 1000 NeverSettled (client sampleSystem))
    as (result & l' & w' & Hrun & _ & _ & _ & _ & _ & Hcase).
  destruct (Hcase _ ltac:(done) eq_refl) as (_ & Hpending & Hflag & _).
  rewrite Hrun. cbn [fst].
  assert (Hres : result = Pending) by (by apply Hpending).
  by rewrite (Hflag Hres), Hres.
Defined.

Lemma decoded_comment_fields_witness :
  exists o,
    decodeCommentObject "comment-1" sampleComment = Some o /\
    o !! "id" = Some (VStr "copied-from-elsewhere") /\
    o !! "content" = Some (VStr "See you there").
Proof.
  destruct (decoded_comment_fields "comment-1" sampleComment) as [Hdef Hfields].
  destruct (proj2 Hdef) as [o Ho].
  { by eexists. }
  exists o. split; [exact Ho|].
  destruct (Hfields o Ho) as (_ & Hid & Hother).
  split; [exact Hid|]. by rewrite Hother.
Defined.

Lemma decoded_user_dates_witness :
  exists o,
    decodeUserObject sampleUserDoc 1000 2000 = Some o /\
    o !! "createdAt" = Some (VDate (Some 1735725600000)) /\
    o !! "updatedAt" = Some (VDate (Some 2000)).
Proof.
  destruct (decoded_user_dates sampleUserDoc 1000 2000) as [Hdef Hfields].
  destruct (proj2 Hdef) as [o Ho].
  { intros field [->| ->]; [right; right; by eexists|right; by left]. }
  exists o. split; [exact Ho|].
  destruct (Hfields o Ho) as (H1 & H2 & _). split; [exact H1|exact H2].
Defined.

